(** * Gemini service layer: retry wrapper, request builder, output normalizer

    A shallow embedding of [services/gemini.ts] (both revisions kept in the
    repository: the [ImagePart] revision and the [AssetFile] revision) and of
    [handleApiError] from [App.tsx].

    Conventions of the embedding.
    - A JavaScript string is the list of its UTF-16 code units ([list N]).
      [js "..."] turns an ASCII literal into such a list.
    - An [async] function is a state transformer over a world [W]: awaiting
      a promise runs the computation to its settlement.  The observable
      effects ([setTimeout] suspensions, console output, invocations of the
      wrapped operation) are collected, in order, in a trace.
    - A thrown value is a record of the fields that the code probes. *)

From Stdlib Require Import List ZArith NArith Bool Lia String Ascii QArith.
From Stdlib Require Import Numbers.DecimalString.
Import ListNotations.

Set Implicit Arguments.

(* ------------------------------------------------------------------ *)
(** ** JavaScript strings *)

Module JsStr.

Definition JsString := list N.

(** ASCII literal to code units. *)
Definition js (s : string) : JsString :=
  List.map N_of_ascii (list_ascii_of_string s).

Definition nl : JsString := [10%N].
Definition dq : JsString := [34%N].

Fixpoint eqb (a b : JsString) : bool :=
  match a, b with
  | [], [] => true
  | x :: a', y :: b' => N.eqb x y && eqb a' b'
  | _, _ => false
  end.

(** [s.startsWith(p)]; also the test behind a [^p] regular expression. *)
Fixpoint starts_with (p s : JsString) : bool :=
  match p, s with
  | [], _ => true
  | x :: p', y :: s' => N.eqb x y && starts_with p' s'
  | _ :: _, [] => false
  end.

(** The test behind a [p$] regular expression without the [m] flag. *)
Definition ends_with (p s : JsString) : bool :=
  starts_with (rev p) (rev s).

(** [s.includes(needle)]. *)
Fixpoint includes (needle s : JsString) : bool :=
  starts_with needle s ||
  match s with
  | [] => false
  | _ :: s' => includes needle s'
  end.

(** [String.prototype.toLowerCase] on the ASCII range: A-Z are mapped and
    every other code unit is kept, whereas the platform also maps letters
    outside ASCII and may change the length.  The lower-cased text is
    therefore the code's text for ASCII input only.  The marker searches
    below agree with the code on every input: outside ASCII the only code
    points whose lower-case form contains an ASCII letter are U+212A (k)
    and U+0130 (i), and neither letter occurs in a marker that the code
    searches for. *)
Definition lower_unit (c : N) : N :=
  if (65 <=? c)%N && (c <=? 90)%N then (c + 32)%N else c.

Definition toLowerCase (s : JsString) : JsString := List.map lower_unit s.

(** The class [\s] of ECMAScript regular expressions. *)
Definition is_space (c : N) : bool :=
  ((9 <=? c) && (c <=? 13) || (c =? 32) || (c =? 160) || (c =? 5760)
   || (8192 <=? c) && (c <=? 8202) || (c =? 8232) || (c =? 8233)
   || (c =? 8239) || (c =? 8287) || (c =? 12288) || (c =? 65279))%N.

(** Drop the longest prefix matched by [\s*]. *)
Fixpoint skip_spaces (s : JsString) : JsString :=
  match s with
  | c :: s' => if is_space c then skip_spaces s' else s
  | [] => []
  end.

(** Decimal rendering of a non-negative integer, as in a template literal. *)
Definition of_N (n : N) : JsString :=
  js (NilZero.string_of_uint (N.to_uint n)).

End JsStr.
Import JsStr.

(* ------------------------------------------------------------------ *)
(** ** Thrown values *)

(** A property value read off a thrown object. *)
Inductive JsVal : Type :=
| JsUndefined
| JsNull
| JsBool (b : bool)
| JsNum (n : Z)
| JsText (s : JsString).

Definition truthy (v : JsVal) : bool :=
  match v with
  | JsUndefined | JsNull => false
  | JsBool b => b
  | JsNum n => negb (n =? 0)%Z
  | JsText s => negb (eqb s [])
  end.

(** [a || b] *)
Definition js_or (a b : JsVal) : JsVal := if truthy a then a else b.

(** [v === n] for a number literal [n]. *)
Definition strict_eq_num (v : JsVal) (n : Z) : bool :=
  match v with
  | JsNum m => (m =? n)%Z
  | _ => false
  end.

(** The failure of a remote call, as far as the code looks into it.
    Failures are [Error] instances or API error objects: [message], when
    present, is a string, and [JSON.stringify] yields a text. *)
Record JsError : Type := mkError {
  err_status : JsVal;                 (* error?.status *)
  err_response_status : JsVal;        (* error?.response?.status *)
  err_error_code : JsVal;             (* error?.error?.code *)
  err_message : option JsString;      (* error?.message *)
  err_error_message : option JsString;(* error?.error?.message *)
  err_json : JsString                 (* JSON.stringify(error) *)
}.

(** [m || fallback] for an optional string: absent and empty are falsy. *)
Definition text_or (m : option JsString) (fallback : JsString) : JsString :=
  match m with
  | Some (c :: s) => c :: s
  | _ => fallback
  end.

(** [generateWithRetry], the [status] local. *)
Definition retry_status (error : JsError) : JsVal :=
  js_or (js_or (err_status error) (err_response_status error))
        (err_error_code error).

(** [generateWithRetry], the [message] local. *)
Definition retry_message (error : JsError) : JsString :=
  toLowerCase (text_or (err_message error) (err_json error)).

(** [generateWithRetry], the [isRateLimit] local. *)
Definition isRateLimit (error : JsError) : bool :=
  let status := retry_status error in
  let message := retry_message error in
  strict_eq_num status 429
  || strict_eq_num status 503
  || includes (js "429") message
  || includes (js "quota") message
  || includes (js "resource_exhausted") message.

(* ------------------------------------------------------------------ *)
(** ** Effects *)

Inductive Outcome (T : Type) : Type :=
| Resolved (v : T)
| Rejected (error : JsError).
Arguments Resolved {T} v.
Arguments Rejected {T} error.

Inductive Event : Type :=
| Invoke                              (* operation() *)
| Warn (delay retries : Z)            (* console.warn(`API Limit hit...`) *)
| Suspend (ms : Z)                    (* await setTimeout(resolve, ms) *)
| LogError (label : JsString) (error : JsError). (* console.error(label, error) *)

Definition Trace := list Event.

Fixpoint invocations (tr : Trace) : Z :=
  match tr with
  | [] => 0
  | Invoke :: tr' => 1 + invocations tr'
  | _ :: tr' => invocations tr'
  end.

Fixpoint suspensions (tr : Trace) : list Z :=
  match tr with
  | [] => []
  | Suspend ms :: tr' => ms :: suspensions tr'
  | _ :: tr' => suspensions tr'
  end.

Definition total_suspension (tr : Trace) : Z :=
  fold_right Z.add 0%Z (suspensions tr).

(* ------------------------------------------------------------------ *)
(** ** generateWithRetry *)

Section Retry.

Variables (W T : Type).

(** [operation: () => Promise<T>]: one call settles and moves the world. *)
Definition Operation := W -> Outcome T * W.

Definition Run := (Outcome T * Trace * W)%type.

Definition after (prefix : Trace) (r : Run) : Run :=
  let '(o, tr, w) := r in (o, prefix ++ tr, w).

(** The recursion of [generateWithRetry], structural on [budget], which
    [generateWithRetry] sets to the retries still allowed.  The branch
    [budget = 0] under [retries > 0] is not reached from there
    (see [generateWithRetry_unfold]). *)
Fixpoint retry_loop (budget : nat) (operation : Operation)
         (retries delay : Z) (w : W) : Run :=
  match operation w with
  | (Resolved v, w1) => (Resolved v, [Invoke], w1)
  | (Rejected error, w1) =>
      if isRateLimit error && (0 <? retries)%Z then
        match budget with
        | S budget' =>
            after [Invoke; Warn delay retries; Suspend delay]
                  (retry_loop budget' operation (retries - 1) (delay * 2) w1)
        | O => (Rejected error, [Invoke], w1)
        end
      else (Rejected error, [Invoke], w1)
  end.

Definition generateWithRetry (operation : Operation)
           (retries delay : Z) (w : W) : Run :=
  retry_loop (Z.to_nat retries) operation retries delay w.

(** Default parameters [retries = 3, delay = 2000]. *)
Definition generateWithRetry_default (operation : Operation) (w : W) : Run :=
  generateWithRetry operation 3 2000 w.

End Retry.

(* ------------------------------------------------------------------ *)
(** ** Output normalizer

    [text.replace(/^```html\s*/, '').replace(/^```\s*/, '').replace(/```$/, '')],
    the expression shared by [bringToLife] and [refineCode]. *)

Definition fence : JsString := js "```".
Definition html_fence : JsString := js "```html".

(** [s.replace(/^p\s*/, '')] for a literal [p]. *)
Definition replace_leading (p s : JsString) : JsString :=
  if starts_with p s then skip_spaces (skipn (List.length p) s) else s.

(** [s.replace(/p$/, '')] for a literal [p]. *)
Definition replace_trailing (p s : JsString) : JsString :=
  if ends_with p s then firstn (List.length s - List.length p) s else s.

Definition normalize (text : JsString) : JsString :=
  replace_trailing fence
    (replace_leading fence (replace_leading html_fence text)).

(* ------------------------------------------------------------------ *)
(** ** The remote call *)

Record ImagePart : Type := mkImagePart {
  inline_data : JsString;
  inline_mimeType : JsString
}.

Inductive Part : Type :=
| TextPart (text : JsString)
| InlineDataPart (img : ImagePart).

Record GenerateContentParameters : Type := mkParams {
  model : JsString;
  parts : list Part;
  systemInstruction : JsString;
  temperature : Q
}.

(** [GenerateContentResponse], of which only [text] is read. *)
Record GenerateContentResponse : Type := mkResponse {
  text : option JsString
}.

Definition GEMINI_MODEL : JsString := js "gemini-3-pro-preview".

Definition placeholder : JsString := js "<!-- Failed to generate content -->".

(** [s || d] for strings. *)
Definition str_or (s d : JsString) : JsString :=
  match s with
  | [] => d
  | _ :: _ => s
  end.

(** The [try]/[catch] around the remote call in [bringToLife] and
    [refineCode]: log and rethrow. *)
Definition log_and_rethrow (W : Type) (label : JsString)
           (r : Outcome JsString * Trace * W) : Outcome JsString * Trace * W :=
  match r with
  | (Rejected error, tr, w) => (Rejected error, tr ++ [LogError label error], w)
  | _ => r
  end.

(** Revision of [services/gemini.ts] whose attachments are [ImagePart]s. *)
Module ImageRevision.
Section Service.

Variable W : Type.
(** The text of the system instruction is passed on and never inspected. *)
Variable SYSTEM_INSTRUCTION : JsString.
(** [ai.models.generateContent] *)
Variable generateContent :
  GenerateContentParameters -> Operation W GenerateContentResponse.

Definition finalPrompt (prompt : JsString) (images : list ImagePart) : JsString :=
  if (0 <? List.length images)%nat then
    js "Context: User uploaded an image. Voice Command: " ++ dq
    ++ str_or prompt
         (js "Analyze this image and build a web interface based on it.")
    ++ dq ++ js ". Generate a web interface response."
  else
    js "Voice Command: " ++ dq ++ prompt ++ dq
    ++ js ". Generate the web interface for this request.".

Definition bringToLife_request (prompt : JsString) (images : list ImagePart)
  : GenerateContentParameters :=
  {| model := GEMINI_MODEL;
     parts := TextPart (finalPrompt prompt images)
              :: List.map InlineDataPart images;
     systemInstruction := SYSTEM_INSTRUCTION;
     temperature := 6 # 10 |}.

Definition bringToLife (prompt : JsString) (images : list ImagePart) (w : W)
  : Outcome JsString * Trace * W :=
  log_and_rethrow (js "Gemini Generation Error:")
    (let '(o, tr, w') :=
       generateWithRetry_default
         (generateContent (bringToLife_request prompt images)) w in
     match o with
     | Resolved response =>
         (Resolved (normalize (text_or (text response) placeholder)), tr, w')
     | Rejected error => (Rejected error, tr, w')
     end).

Definition refine_prompt (currentHtml refinementPrompt : JsString) : JsString :=
  nl ++ js "    CURRENT CODE:" ++ nl
  ++ js "    " ++ currentHtml ++ nl
  ++ nl
  ++ js "    USER REQUEST FOR IMPROVEMENT:" ++ nl
  ++ js "    " ++ dq ++ refinementPrompt ++ dq ++ nl
  ++ nl
  ++ js "    INSTRUCTIONS:" ++ nl
  ++ js "    1. Update the CURRENT CODE to match the USER REQUEST." ++ nl
  ++ js "    2. Maintain the same visual style and structure unless asked to change." ++ nl
  ++ js "    3. Return the FULL updated HTML file (do not return just snippets)." ++ nl
  ++ js "    4. Ensure the code remains self-contained (no external images except Tailwind CDN)." ++ nl
  ++ js "  ".

Definition refineCode_request (currentHtml refinementPrompt : JsString)
  : GenerateContentParameters :=
  {| model := GEMINI_MODEL;
     parts := [TextPart (refine_prompt currentHtml refinementPrompt)];
     systemInstruction := SYSTEM_INSTRUCTION;
     temperature := 5 # 10 |}.

Definition refineCode (currentHtml refinementPrompt : JsString) (w : W)
  : Outcome JsString * Trace * W :=
  log_and_rethrow (js "Gemini Refine Error:")
    (let '(o, tr, w') :=
       generateWithRetry_default
         (generateContent (refineCode_request currentHtml refinementPrompt)) w in
     match o with
     | Resolved response =>
         (Resolved (normalize (text_or (text response) currentHtml)), tr, w')
     | Rejected error => (Rejected error, tr, w')
     end).

End Service.
End ImageRevision.

(** Revision of [services/gemini.ts] whose attachments are [AssetFile]s. *)
Module AssetRevision.

Record AssetFile : Type := mkAsset {
  name : JsString;
  mimeType : JsString;
  data : JsString     (* Base64 string *)
}.

(** The complement of the class [[^a-zA-Z0-9.-]]. *)
Definition path_unit_ok (c : N) : bool :=
  ((97 <=? c) && (c <=? 122) || (65 <=? c) && (c <=? 90)
   || (48 <=? c) && (c <=? 57) || (c =? 46) || (c =? 45))%N.

(** [name.replace(/[^a-zA-Z0-9.-]/g, '_')] *)
Definition clean_name (s : JsString) : JsString :=
  List.map (fun c => if path_unit_ok c then c else 95%N) s.

Definition virtualPath (asset : AssetFile) : JsString :=
  js "/assets/uploads/" ++ clean_name (name asset).

(** What one round of the [assets.forEach] callback of [bringToLife]
    appends; [index] counts from 0. *)
Definition asset_block (asset : AssetFile) (index : N) : JsString :=
  (nl ++ js "--- ASSET " ++ of_N (index + 1) ++ js " ---" ++ nl)
  ++ (js "Filename: " ++ name asset ++ nl)
  ++ (js "Virtual Path: " ++ virtualPath asset ++ nl)
  ++ (js "MIME: " ++ mimeType asset ++ nl)
  ++ (js "DATA (Base64): data:" ++ mimeType asset ++ js ";base64,"
      ++ data asset ++ nl)
  ++ (js "INSTRUCTION: Wherever the code would logically use " ++ dq
      ++ virtualPath asset ++ dq
      ++ js " (or if the user asked for this file), insert the DATA string above."
      ++ nl).

(** What one round of the [newAssets.forEach] callback of [refineCode]
    appends. *)
Definition new_asset_block (asset : AssetFile) (index : N) : JsString :=
  (nl ++ js "--- NEW ASSET " ++ of_N (index + 1) ++ js " ---" ++ nl)
  ++ (js "Filename: " ++ name asset ++ nl)
  ++ (js "Virtual Path: " ++ virtualPath asset ++ nl)
  ++ (js "MIME: " ++ mimeType asset ++ nl)
  ++ (js "DATA (Base64): data:" ++ mimeType asset ++ js ";base64,"
      ++ data asset ++ nl)
  ++ (js "INSTRUCTION: Integrate this new asset into the code. Use the Base64 data for 'src' attributes."
      ++ nl).

(** [assets.forEach((asset, index) => { acc += block(asset, index) })] *)
Fixpoint forEach_append (block : AssetFile -> N -> JsString)
         (assets : list AssetFile) (index : N) (acc : JsString) : JsString :=
  match assets with
  | [] => acc
  | asset :: rest =>
      forEach_append block rest (index + 1) (acc ++ block asset index)
  end.

Definition closing_instruction : JsString :=
  nl ++ js "Generate the fully functional HTML application now.".

Definition constructedPrompt (prompt : JsString) (assets : list AssetFile)
  : JsString :=
  let p0 :=
    js "Voice Command: " ++ dq
    ++ str_or prompt (js "Build a web interface based on these assets.")
    ++ dq ++ js "." in
  let p1 :=
    if (0 <? List.length assets)%nat then
      forEach_append asset_block assets 0
        (p0
         ++ (nl ++ nl ++ js "[ATTACHED ASSETS DETECTED]" ++ nl)
         ++ (js "The user has uploaded the following files. You must use them in the generated code." ++ nl)
         ++ (js "IMPORTANT: To make them work, you must use the BASE64 data provided below as the 'src'." ++ nl))
    else p0 in
  p1 ++ closing_instruction.

Definition assetContext (newAssets : list AssetFile) : JsString :=
  if (0 <? List.length newAssets)%nat then
    forEach_append new_asset_block newAssets 0
      ([]
       ++ (nl ++ nl ++ js "[NEW ASSETS PROVIDED]" ++ nl)
       ++ (js "The user has uploaded new files to be added to the project:" ++ nl))
  else [].

Definition refine_prompt (currentHtml refinementPrompt : JsString)
           (newAssets : list AssetFile) : JsString :=
  nl ++ js "    CURRENT CODE:" ++ nl
  ++ js "    " ++ currentHtml ++ nl
  ++ nl
  ++ js "    USER REQUEST FOR IMPROVEMENT:" ++ nl
  ++ js "    " ++ dq ++ refinementPrompt ++ dq ++ nl
  ++ nl
  ++ js "    " ++ assetContext newAssets ++ nl
  ++ nl
  ++ js "    INSTRUCTIONS:" ++ nl
  ++ js "    1. Update the CURRENT CODE to match the USER REQUEST." ++ nl
  ++ js "    2. Maintain the same visual style and structure unless asked to change." ++ nl
  ++ js "    3. If new assets are provided, ensure they are implemented correctly using the Data URIs." ++ nl
  ++ js "    4. Return the FULL updated HTML file (do not return just snippets)." ++ nl
  ++ js "    5. Ensure the code remains self-contained." ++ nl
  ++ js "  ".

Section Service.

Variable W : Type.
Variable SYSTEM_INSTRUCTION : JsString.
Variable generateContent :
  GenerateContentParameters -> Operation W GenerateContentResponse.

Definition bringToLife_request (prompt : JsString) (assets : list AssetFile)
  : GenerateContentParameters :=
  {| model := GEMINI_MODEL;
     parts := [TextPart (constructedPrompt prompt assets)];
     systemInstruction := SYSTEM_INSTRUCTION;
     temperature := 6 # 10 |}.

Definition bringToLife (prompt : JsString) (assets : list AssetFile) (w : W)
  : Outcome JsString * Trace * W :=
  log_and_rethrow (js "Gemini Generation Error:")
    (let '(o, tr, w') :=
       generateWithRetry_default
         (generateContent (bringToLife_request prompt assets)) w in
     match o with
     | Resolved response =>
         (Resolved (normalize (text_or (text response) placeholder)), tr, w')
     | Rejected error => (Rejected error, tr, w')
     end).

Definition refineCode_request (currentHtml refinementPrompt : JsString)
           (newAssets : list AssetFile) : GenerateContentParameters :=
  {| model := GEMINI_MODEL;
     parts := [TextPart (refine_prompt currentHtml refinementPrompt newAssets)];
     systemInstruction := SYSTEM_INSTRUCTION;
     temperature := 5 # 10 |}.

Definition refineCode (currentHtml refinementPrompt : JsString)
           (newAssets : list AssetFile) (w : W)
  : Outcome JsString * Trace * W :=
  log_and_rethrow (js "Gemini Refine Error:")
    (let '(o, tr, w') :=
       generateWithRetry_default
         (generateContent
            (refineCode_request currentHtml refinementPrompt newAssets)) w in
     match o with
     | Resolved response =>
         (Resolved (normalize (text_or (text response) currentHtml)), tr, w')
     | Rejected error => (Rejected error, tr, w')
     end).

End Service.
End AssetRevision.

(* ------------------------------------------------------------------ *)
(** ** The caller's failure handler ([App.tsx], [handleApiError]) *)

Inductive Alert : Type :=
| QuotaLimitReached
| RenderFailed (details : JsString).

(** The [msg] local, after [msg = msg.toLowerCase()]. *)
Definition handler_msg (error : JsError) : JsString :=
  toLowerCase
    (match err_error_message error with
     | Some (c :: s) => c :: s
     | _ => text_or (err_message error) (err_json error)
     end).

Definition isQuotaError (error : JsError) : bool :=
  let msg := handler_msg error in
  includes (js "429") msg
  || includes (js "quota") msg
  || includes (js "resource_exhausted") msg
  || strict_eq_num (err_error_code error) 429
  || strict_eq_num (err_status error) 429.

Definition handleApiError (error : JsError) : Alert :=
  if isQuotaError error then QuotaLimitReached
  else RenderFailed
         (str_or (firstn 200 (handler_msg error))
                 (js "Unknown error occurred.")).

(* ------------------------------------------------------------------ *)
(** ** Console errors of a trace *)

(** The [console.error] calls of a trace, in order. *)
Fixpoint errors_logged (tr : Trace) : list (JsString * JsError) :=
  match tr with
  | [] => []
  | LogError label error :: tr' => (label, error) :: errors_logged tr'
  | _ :: tr' => errors_logged tr'
  end.

(* ------------------------------------------------------------------ *)
(** ** More string operations *)

(** [s.trim()]: white space and line terminators, the class [\s]. *)
Definition trim (s : JsString) : JsString :=
  rev (skip_spaces (rev (skip_spaces s))).

(** [s.split(sep)] for a one-unit separator. *)
Fixpoint split_on (sep : N) (s : JsString) : list JsString :=
  match s with
  | [] => [[]]
  | c :: s' =>
      if N.eqb c sep then [] :: split_on sep s'
      else match split_on sep s' with
           | field :: fields => (c :: field) :: fields
           | [] => [[c]]
           end
  end.

(** The leftmost occurrence of [needle]: the text before it and the text
    after it. *)
Fixpoint find_first (needle s : JsString) : option (JsString * JsString) :=
  if starts_with needle s then Some ([], skipn (List.length needle) s)
  else match s with
       | [] => None
       | c :: s' =>
           match find_first needle s' with
           | Some (before, rest) => Some (c :: before, rest)
           | None => None
           end
       end.

(** The match of [/opening([\s\S]*?)closing/] for literal delimiters: the
    leftmost [opening] and the first [closing] after it.  (If the leftmost
    [opening] has no [closing] after it, no later one has.) *)
Definition match_block (opening closing s : JsString)
  : option (JsString * JsString * JsString) :=
  match find_first opening s with
  | None => None
  | Some (before, rest) =>
      match find_first closing rest with
      | None => None
      | Some (inner, rest') => Some (before, inner, rest')
      end
  end.

(** [s.replace(/opening[\s\S]*?closing/g, replacement)]: the scan resumes
    after each match.  [fuel] bounds the number of matches. *)
Fixpoint replace_blocks_loop (fuel : nat)
         (opening closing replacement s : JsString) : JsString :=
  match fuel with
  | O => s
  | S fuel' =>
      match match_block opening closing s with
      | None => s
      | Some (before, _, rest) =>
          before ++ replacement
          ++ replace_blocks_loop fuel' opening closing replacement rest
      end
  end.

Definition replace_blocks (opening closing replacement s : JsString)
  : JsString :=
  replace_blocks_loop (List.length s) opening closing replacement s.

(** [clash p t]: [p] and [t] differ at a position that both have. *)
Fixpoint clash (p t : JsString) : bool :=
  match p, t with
  | x :: p', y :: t' => negb (N.eqb x y) || clash p' t'
  | _, _ => false
  end.

(** [apart needle r]: no occurrence of [needle] in a text can overlap an
    occurrence of [r]: [needle] matches at no offset of [r], and no proper
    suffix of [needle] runs into the start of [r]. *)
Definition apart (needle r : JsString) : bool :=
  forallb (fun j => clash needle (skipn j r)) (seq 0 (List.length r))
  && forallb (fun j => clash (skipn j needle) r)
             (seq 1 (List.length needle - 1)).

(* ------------------------------------------------------------------ *)
(** ** App.tsx: the handlers around the service *)

Module App.

(** [Creation], by the fields that the handlers write. *)
Record Creation : Type := mkCreation {
  creation_id : JsString;
  creation_name : JsString;
  creation_html : JsString;
  creation_originalImage : option JsString;
  creation_timestamp : Z
}.

(** [File], by the fields that the handlers read. *)
Record File : Type := mkFile {
  file_name : JsString;
  file_type : JsString
}.

Record AppState : Type := mkState {
  activeCreation : option Creation;
  isGenerating : bool;
  history : list Creation
}.

(** The calls of the state setters that a handler makes. *)
Inductive Update : Type :=
| SetIsGenerating (b : bool)
| SetActiveCreation (c : option Creation)
| PrependHistory (c : Creation).   (* setHistory(prev => [c, ...prev]) *)

Definition apply_update (st : AppState) (u : Update) : AppState :=
  match u with
  | SetIsGenerating b =>
      {| activeCreation := activeCreation st; isGenerating := b;
         history := history st |}
  | SetActiveCreation c =>
      {| activeCreation := c; isGenerating := isGenerating st;
         history := history st |}
  | PrependHistory c =>
      {| activeCreation := activeCreation st; isGenerating := isGenerating st;
         history := c :: history st |}
  end.

Definition apply_updates (st : AppState) (us : list Update) : AppState :=
  fold_left apply_update us st.

(** What a handler did: setter calls, alerts shown, the trace of the
    service call, and the world it leaves. *)
Record HandlerRun (W : Type) : Type := mkRun {
  updates : list Update;
  alerts : list Alert;
  remote : Trace;
  world : W
}.

Definition failed_to_convert : JsError :=
  {| err_status := JsUndefined;
     err_response_status := JsUndefined;
     err_error_code := JsUndefined;
     err_message := Some (js "Failed to convert file");
     err_error_message := None;
     err_json := js "{}" |}.

(** The [reader.onload] callback of [fileToBase64]; [result] is
    [reader.result] when it is a string.  [data] is absent when the text
    has no comma. *)
Definition fileToBase64_onload (file : File) (result : option JsString)
  : Outcome (option JsString * JsString) :=
  match result with
  | Some url =>
      Resolved (nth_error (split_on 44 url) 1, toLowerCase (file_type file))
  | None => Rejected failed_to_convert
  end.

(** [`data:${mimeType};base64,${data}`] *)
Definition data_url (mimeType data : JsString) : JsString :=
  js "data:" ++ mimeType ++ js ";base64," ++ data.

Section Handlers.

Variable W : Type.
Variable SYSTEM_INSTRUCTION : JsString.
Variable generateContent :
  GenerateContentParameters -> Operation W GenerateContentResponse.
(** [fileToBase64], at its declared type
    [Promise<{data: string, mimeType: string}>]. *)
Variable fileToBase64 : File -> Operation W ImagePart.
(** [crypto.randomUUID()] and [new Date()]. *)
Variable randomUUID : W -> JsString * W.
Variable newDate : W -> Z.

Definition finish (W' : Type) (middle : list Update) (shown : list Alert)
           (tr : Trace) (w : W') : HandlerRun W' :=
  {| updates := middle ++ [SetIsGenerating false];
     alerts := shown; remote := tr; world := w |}.

Definition handleGenerate (promptText : JsString) (file : option File) (w : W)
  : HandlerRun W :=
  let start := [SetIsGenerating true; SetActiveCreation None] in
  let attached :=
    match file with
    | None => (Resolved ([], None), w)
    | Some f =>
        match fileToBase64 f w with
        | (Resolved img, w1) =>
            (Resolved ([img],
                       Some (data_url (inline_mimeType img) (inline_data img))),
             w1)
        | (Rejected error, w1) => (Rejected error, w1)
        end
    end in
  match attached with
  | (Rejected error, w1) => finish start [handleApiError error] [] w1
  | (Resolved (imageParts, imageUrl), w1) =>
      match ImageRevision.bringToLife SYSTEM_INSTRUCTION generateContent
                                      promptText imageParts w1 with
      | (Rejected error, tr, w2) => finish start [handleApiError error] tr w2
      | (Resolved [], tr, w2) => finish start [] tr w2
      | (Resolved (c :: html), tr, w2) =>
          let '(uuid, w3) := randomUUID w2 in
          let newCreation :=
            {| creation_id := uuid;
               creation_name :=
                 str_or (firstn 30 promptText)
                        (match file with
                         | Some _ => js "Image Analysis"
                         | None => js "Voice Search Result"
                         end);
               creation_html := c :: html;
               creation_originalImage := imageUrl;
               creation_timestamp := newDate w3 |} in
          finish (start ++ [SetActiveCreation (Some newCreation);
                            PrependHistory newCreation])
                 [] tr w3
      end
  end.

(** [activeCreation] is the value that the handler closes over. *)
Definition handleRefine (activeCreation : option Creation)
           (refinementPrompt : JsString) (w : W) : HandlerRun W :=
  match activeCreation with
  | None => {| updates := []; alerts := []; remote := []; world := w |}
  | Some active =>
      let start := [SetIsGenerating true] in
      match ImageRevision.refineCode SYSTEM_INSTRUCTION generateContent
                                     (creation_html active) refinementPrompt w
      with
      | (Rejected error, tr, w1) => finish start [handleApiError error] tr w1
      | (Resolved updatedHtml, tr, w1) =>
          let '(uuid, w2) := randomUUID w1 in
          let refinedCreation :=
            {| creation_id := uuid;
               creation_name := creation_name active ++ js " (Refined)";
               creation_html := updatedHtml;
               creation_originalImage := creation_originalImage active;
               creation_timestamp := newDate w2 |} in
          finish (start ++ [SetActiveCreation (Some refinedCreation);
                            PrependHistory refinedCreation])
                 [] tr w2
      end
  end.

End Handlers.
End App.

(* ------------------------------------------------------------------ *)
(** ** components/LivePreview.tsx *)

Module LivePreview.

(** The complement of [/[^a-z0-9]/gi]. *)
Definition alnum_unit (c : N) : bool :=
  ((97 <=? c) && (c <=? 122) || (65 <=? c) && (c <=? 90)
   || (48 <=? c) && (c <=? 57))%N.

(** [name.replace(/[^a-z0-9]/gi, '_').toLowerCase()] *)
Definition file_stem (name : JsString) : JsString :=
  toLowerCase (List.map (fun c => if alnum_unit c then c else 95%N) name).

(** [a.download] in [handleDownloadZip] and [handleDownloadBlogger]. *)
Definition zip_download_name (name : JsString) : JsString :=
  file_stem name ++ js ".zip".

Definition blogger_download_name (name : JsString) : JsString :=
  file_stem name ++ js "-blogger-theme.xml".

(** [setLoadingStep(prev => (prev < 3 ? prev + 1 : prev))], run by the
    interval every 2000 ms while loading. *)
Definition loading_tick (prev : Z) : Z :=
  if (prev <? 3)%Z then (prev + 1)%Z else prev.

(** The step shown after [ticks] interval ticks; loading starts at 0. *)
Definition loadingStep (ticks : nat) : Z := Nat.iter ticks loading_tick 0%Z.

(** The props of the [k]-th [LoadingStep] row, [k] = 0..3. *)
Definition step_active (k : Z) (ticks : nat) : bool :=
  (loadingStep ticks =? k)%Z.
Definition step_completed (k : Z) (ticks : nat) : bool :=
  (k <? loadingStep ticks)%Z.

(** The index of the first [>] and the text after it. *)
Fixpoint after_first_gt (s : JsString) : option JsString :=
  match s with
  | [] => None
  | c :: s' => if N.eqb c 62 then Some s' else after_first_gt s'
  end.

(** [s.replace(/^<body[^>]*>/, '')] *)
Definition strip_body_open (s : JsString) : JsString :=
  if starts_with (js "<body") s then
    match after_first_gt (skipn 5 s) with
    | Some rest => rest
    | None => s
    end
  else s.

(** [bodyContent.replace(/^<body[^>]*>/, '').replace(/<\/body>$/, '')]
    in [handleDownloadBlogger]. *)
Definition strip_body_tags (bodyContent : JsString) : JsString :=
  replace_trailing (js "</body>") (strip_body_open bodyContent).

Inductive CodeType : Type := CodeHtml | CodeCss | CodeJs.

Definition extractCode (type : CodeType) (creation : option App.Creation)
  : JsString :=
  match creation with
  | None => []
  | Some c =>
      match App.creation_html c with
      | [] => []
      | html =>
          match type with
          | CodeCss =>
              match match_block (js "<style>") (js "</style>") html with
              | Some (_, inner, _) => trim inner
              | None => js "/* No internal CSS found */"
              end
          | CodeJs =>
              match match_block (js "<script>") (js "</script>") html with
              | Some (_, inner, _) => trim inner
              | None => js "// No internal JS found"
              end
          | CodeHtml =>
              trim (replace_blocks (js "<script>") (js "</script>")
                      (js "<!-- JS Removed -->")
                      (replace_blocks (js "<style>") (js "</style>")
                         (js "<!-- CSS Removed -->") html))
          end
      end
  end.

(** [handleRefineSubmit]: the argument passed to [onRefine], if it is
    called, and the new value of the input. *)
Definition handleRefineSubmit (refinePrompt : JsString)
  : option JsString * JsString :=
  match trim refinePrompt with
  | [] => (None, refinePrompt)
  | _ :: _ => (Some refinePrompt, [])
  end.

End LivePreview.

(* ------------------------------------------------------------------ *)
(** ** components/InputArea.tsx (the revision with several assets) *)

Module InputArea.

(** [prev.filter((_, i) => keep(i))], [i] counting from [index]. *)
Fixpoint filter_index (A : Type) (keep : nat -> bool) (index : nat)
         (l : list A) : list A :=
  match l with
  | [] => []
  | x :: l' =>
      if keep index then x :: filter_index keep (S index) l'
      else filter_index keep (S index) l'
  end.

(** [removeAsset]: [prev.filter((_, i) => i !== index)] *)
Definition removeAsset (A : Type) (index : nat) (prev : list A) : list A :=
  filter_index (fun i => negb (Nat.eqb i index)) 0 prev.

(** [handleAssetUpload]: the new list of files; [files] is
    [e.target.files], absent or a list. *)
Definition handleAssetUpload (A : Type) (files : option (list A))
           (prev : list A) : list A :=
  match files with
  | Some (f :: fs) => prev ++ f :: fs
  | _ => prev
  end.

(** [s.replace(/\s+/g, '_')]: every maximal run of white space becomes one
    underscore.  [in_run] tells that the previous unit was white space. *)
Fixpoint replace_space_runs (in_run : bool) (s : JsString) : JsString :=
  match s with
  | [] => []
  | c :: s' =>
      if is_space c then
        if in_run then replace_space_runs true s'
        else 95%N :: replace_space_runs true s'
      else c :: replace_space_runs false s'
  end.

(** The virtual path shown next to an uploaded file. *)
Definition displayed_path (file_name : JsString) : JsString :=
  js "/assets/uploads/" ++ replace_space_runs false file_name.

(** [handleManualSubmit]: the arguments passed to [onGenerate], if it is
    called, and the new transcript and file list. *)
Definition handleManualSubmit (A : Type) (transcript : JsString)
           (assetFiles : list A)
  : option (JsString * list A) * JsString * list A :=
  match trim transcript, assetFiles with
  | [], [] => (None, transcript, assetFiles)
  | _, _ => (Some (transcript, assetFiles), [], [])
  end.

End InputArea.

(* ------------------------------------------------------------------ *)
(** ** Readings of the specification used for comparison *)

Definition trace_of (W T : Type) (r : Outcome T * Trace * W) : Trace :=
  snd (fst r).

Definition outcome_of (W T : Type) (r : Outcome T * Trace * W) : Outcome T :=
  fst (fst r).

(** The transient-failure signal in the words of the specification:
    status 429 or 503, or the textual markers "quota" and
    "resource_exhausted" in the message. *)
Definition transient_as_specified (error : JsError) : bool :=
  strict_eq_num (retry_status error) 429
  || strict_eq_num (retry_status error) 503
  || includes (js "quota") (retry_message error)
  || includes (js "resource_exhausted") (retry_message error).

(** An operation that fails with the same value on every call and counts
    its calls. *)
Definition always_fails (T : Type) (error : JsError) : Operation nat T :=
  fun calls => (Rejected error, S calls).

(** An operation that fails on its first [k] calls and succeeds after. *)
Definition fails_then_succeeds (T : Type) (k : nat) (error : JsError) (v : T)
  : Operation nat T :=
  fun calls =>
    (if (calls <? k)%nat then Rejected error else Resolved v, S calls).

(** A server error whose message happens to contain the digits 429. *)
Definition error_500_trace_id : JsError :=
  {| err_status := JsNum 500;
     err_response_status := JsUndefined;
     err_error_code := JsUndefined;
     err_message := Some (js "Internal error (trace id 8429017)");
     err_error_message := None;
     err_json := js "{" ++ dq ++ js "status" ++ dq ++ js ":500}" |}.

Definition error_429 : JsError :=
  {| err_status := JsNum 429;
     err_response_status := JsUndefined;
     err_error_code := JsUndefined;
     err_message := Some (js "Too Many Requests");
     err_error_message := None;
     err_json := js "{" ++ dq ++ js "status" ++ dq ++ js ":429}" |}.


Definition error_500 : JsError :=
  {| err_status := JsNum 500;
     err_response_status := JsUndefined;
     err_error_code := JsUndefined;
     err_message := Some (js "Internal Server Error");
     err_error_message := None;
     err_json := js "{" ++ dq ++ js "status" ++ dq ++ js ":500}" |}.

(** The lines of [AssetRevision.asset_block] that pair an attachment's
    virtual path with its data and with the instruction to use the data
    wherever the path would be used. *)
Definition mapping_instruction (asset : AssetRevision.AssetFile) : JsString :=
  (js "Virtual Path: " ++ AssetRevision.virtualPath asset ++ nl)
  ++ (js "MIME: " ++ AssetRevision.mimeType asset ++ nl)
  ++ (js "DATA (Base64): data:" ++ AssetRevision.mimeType asset
      ++ js ";base64," ++ AssetRevision.data asset ++ nl)
  ++ (js "INSTRUCTION: Wherever the code would logically use " ++ dq
      ++ AssetRevision.virtualPath asset ++ dq
      ++ js " (or if the user asked for this file), insert the DATA string above."
      ++ nl).

(** A remote call that succeeds at once with a response that has no text,
    and one whose text is the empty string. *)
Definition replies_without_text
  : GenerateContentParameters -> Operation nat GenerateContentResponse :=
  fun _ calls => (Resolved {| text := None |}, S calls).

Definition replies_with_empty_text
  : GenerateContentParameters -> Operation nat GenerateContentResponse :=
  fun _ calls => (Resolved {| text := Some [] |}, S calls).

Definition teapot_with_nested_429 : JsError :=
  {| err_status := JsNum 418;
     err_response_status := JsUndefined;
     err_error_code := JsNum 429;
     err_message := Some (js "I am a teapot");
     err_error_message := None;
     err_json := js "{}" |}.

(** A remote call that fails on every call with a server error. *)
Definition replies_with_500
  : GenerateContentParameters -> Operation nat GenerateContentResponse :=
  fun _ calls => (Rejected error_500, S calls).

(** A file reader that succeeds with a fixed payload. *)
Definition reader_succeeds : App.File -> Operation nat ImagePart :=
  fun f steps =>
    (Resolved {| inline_data := js "iVBORw0KGgo=";
                 inline_mimeType := toLowerCase (App.file_type f) |},
     S steps).

Definition my_photo : App.File :=
  {| App.file_name := js "My Photo.png"; App.file_type := js "image/png" |}.

(** A document with one inline style block and an external script. *)
Definition styled_page : App.Creation :=
  {| App.creation_id := js "1";
     App.creation_name := js "Styled page";
     App.creation_html :=
       js "<html><style> body { margin: 0 } </style><script src='a.js'></script></html>";
     App.creation_originalImage := None;
     App.creation_timestamp := 0 |}.

(** A browser stand-in for the examples: the file reader fails, identifiers
    count up, and the clock shows the number of steps taken. *)
Definition reader_fails : App.File -> Operation nat ImagePart :=
  fun _ steps => (Rejected App.failed_to_convert, S steps).

Definition counting_uuid : nat -> JsString * nat :=
  fun steps => (of_N (N.of_nat steps), S steps).

Definition step_clock : nat -> Z := Z.of_nat.

Definition empty_state : App.AppState :=
  {| App.activeCreation := None; App.isGenerating := false;
     App.history := [] |}.

Definition my_page : App.Creation :=
  {| App.creation_id := js "0";
     App.creation_name := js "My page";
     App.creation_html := js "<!DOCTYPE html><html></html>";
     App.creation_originalImage := None;
     App.creation_timestamp := 0 |}.

(* ================================================================== *)
(** * Properties of generateWithRetry *)

Ltac run_simpl :=
  unfold trace_of, outcome_of, total_suspension;
  cbn [invocations suspensions after app fst snd fold_right].

Section RetryFacts.

Variables (W T : Type).
Implicit Types (operation : Operation W T) (retries delay : Z) (w : W).

(** The function satisfies the recursive equation of the source, for every
    value of [retries]. *)
Lemma generateWithRetry_unfold operation retries delay w :
  generateWithRetry operation retries delay w =
  match operation w with
  | (Resolved v, w1) => (Resolved v, [Invoke], w1)
  | (Rejected error, w1) =>
      if isRateLimit error && (0 <? retries)%Z then
        after [Invoke; Warn delay retries; Suspend delay]
              (generateWithRetry operation (retries - 1) (delay * 2) w1)
      else (Rejected error, [Invoke], w1)
  end.
Proof.
  unfold generateWithRetry.
  destruct (Z.to_nat retries) as [|n] eqn:Hn; simpl;
    destruct (operation w) as [[v|e] w1]; try reflexivity;
    destruct (isRateLimit e); simpl; try reflexivity;
    destruct (Z.ltb_spec 0 retries) as [Hpos|Hneg]; try reflexivity.
  - lia.
  - replace (Z.to_nat (retries - 1)) with n by lia. reflexivity.
Qed.

Lemma retry_loop_invocations budget operation retries delay w :
  (1 <= invocations (trace_of (retry_loop budget operation retries delay w))
     <= Z.of_nat budget + 1)%Z.
Proof.
  revert retries delay w.
  induction budget as [|n IH]; intros retries delay w;
    [|rewrite Nat2Z.inj_succ]; cbn [retry_loop];
    destruct (operation w) as [[v|e] w1];
    try (run_simpl; lia);
    destruct (isRateLimit e && (0 <? retries)%Z);
    try (run_simpl; lia).
  specialize (IH (retries - 1)%Z (delay * 2)%Z w1).
  destruct (retry_loop n operation (retries - 1) (delay * 2) w1) as [[o tr] w2].
  revert IH. run_simpl. lia.
Qed.

Lemma retry_loop_suspension budget operation retries delay w :
  (0 <= delay)%Z ->
  (0 <= total_suspension
          (trace_of (retry_loop budget operation retries delay w))
     <= delay * (2 ^ Z.of_nat budget - 1))%Z.
Proof.
  revert retries delay w.
  induction budget as [|n IH]; intros retries delay w Hd.
  - cbn [retry_loop]. change (2 ^ Z.of_nat 0)%Z with 1%Z.
    destruct (operation w) as [[v|e] w1]; [run_simpl; lia|].
    destruct (isRateLimit e && (0 <? retries)%Z); run_simpl; lia.
  - rewrite Nat2Z.inj_succ, Z.pow_succ_r by lia.
    assert (0 < 2 ^ Z.of_nat n)%Z by (apply Z.pow_pos_nonneg; lia).
    cbn [retry_loop].
    destruct (operation w) as [[v|e] w1]; [run_simpl; nia|].
    destruct (isRateLimit e && (0 <? retries)%Z); [|run_simpl; nia].
    specialize (IH (retries - 1)%Z (delay * 2)%Z w1 ltac:(lia)).
    destruct (retry_loop n operation (retries - 1) (delay * 2) w1)
      as [[o tr] w2].
    revert IH. run_simpl. nia.
Qed.


End RetryFacts.

(** The classification of the code is the one of the specification plus
    one more textual marker, the digits 429 anywhere in the message. *)
Lemma isRateLimit_markers error :
  isRateLimit error =
  transient_as_specified error || includes (js "429") (retry_message error).
Proof.
  unfold isRateLimit, transient_as_specified.
  destruct (strict_eq_num (retry_status error) 429),
           (strict_eq_num (retry_status error) 503),
           (includes (js "429") (retry_message error)),
           (includes (js "quota") (retry_message error)),
           (includes (js "resource_exhausted") (retry_message error));
    reflexivity.
Qed.

(** C1, as the code has it.  With [retries >= 0] and [delay > 0]: a success
    is returned after the single invocation; a failure is retried (warn,
    suspend for [delay], recurse with [retries - 1] and [delay * 2]) exactly
    when [isRateLimit] holds of it and [retries > 0]; otherwise it is
    rethrown unchanged after the single invocation, with no suspension.
    [isRateLimit] is: status 429 or 503, or one of the markers "429",
    "quota", "resource_exhausted" in the lower-cased message. *)
Theorem generateWithRetry_retries_iff_rate_limited :
  forall (W T : Type) (operation : Operation W T) (retries delay : Z) (w : W),
    (0 <= retries)%Z -> (0 < delay)%Z ->
    match operation w with
    | (Resolved v, w1) =>
        generateWithRetry operation retries delay w = (Resolved v, [Invoke], w1)
    | (Rejected error, w1) =>
        (isRateLimit error = true /\ (0 < retries)%Z ->
         generateWithRetry operation retries delay w =
         after [Invoke; Warn delay retries; Suspend delay]
               (generateWithRetry operation (retries - 1) (delay * 2) w1))
        /\ (isRateLimit error = false \/ retries = 0%Z ->
            generateWithRetry operation retries delay w =
            (Rejected error, [Invoke], w1))
        /\ isRateLimit error =
           (strict_eq_num (retry_status error) 429
            || strict_eq_num (retry_status error) 503
            || includes (js "429") (retry_message error)
            || includes (js "quota") (retry_message error)
            || includes (js "resource_exhausted") (retry_message error))
    end.
Proof.
  intros W T operation retries delay w Hr Hd.
  rewrite generateWithRetry_unfold.
  destruct (operation w) as [[v|e] w1]; [reflexivity|].
  repeat split.
  - intros [Hrate Hpos]. rewrite Hrate.
    destruct (Z.ltb_spec 0 retries); [reflexivity | lia].
  - intros [Hrate | Hzero].
    + rewrite Hrate. reflexivity.
    + subst retries. rewrite andb_false_r. reflexivity.
Qed.

Lemma generateWithRetry_retries_iff_rate_limited_witness :
  generateWithRetry (always_fails unit error_429) 3 2000 0%nat =
  after [Invoke; Warn 2000 3; Suspend 2000]
        (generateWithRetry (always_fails unit error_429) 2 4000 1%nat).
Proof.
  pose proof (@generateWithRetry_retries_iff_rate_limited nat unit
                (always_fails unit error_429) 3 2000 0%nat
                ltac:(lia) ltac:(lia)) as H.
  cbn [always_fails] in H.
  destruct H as [Hretry _].
  apply Hretry. split; [vm_compute; reflexivity | lia].
Defined.

(** C1 as stated fails: a failure with status 500 whose message contains
    neither "quota" nor "resource_exhausted" carries no transient signal in
    the sense of the specification, yet it is retried three times, with
    suspensions, because its message contains the digits 429. *)
Lemma status_500_with_429_in_message_is_retried :
  transient_as_specified error_500_trace_id = false
  /\ generateWithRetry (always_fails unit error_500_trace_id) 3 2000 0%nat
     = (Rejected error_500_trace_id,
        [Invoke; Warn 2000 3; Suspend 2000;
         Invoke; Warn 4000 2; Suspend 4000;
         Invoke; Warn 8000 1; Suspend 8000;
         Invoke], 4%nat)
  /\ generateWithRetry (always_fails unit error_500_trace_id) 3 2000 0%nat
     <> (Rejected error_500_trace_id, [Invoke], 1%nat).
Proof.
  split; [vm_compute; reflexivity|].
  split; [vm_compute; reflexivity|].
  vm_compute. discriminate.
Qed.

(** C2.  For [retries >= 0] the wrapper (a total function) invokes the
    operation at least once and at most [retries + 1] times; with the
    default parameters at most 4 times, suspending for at most
    2000 + 4000 + 8000 ms in total. *)
Theorem generateWithRetry_attempts_bounded :
  forall (W T : Type) (operation : Operation W T) (retries delay : Z) (w : W),
    (0 <= retries)%Z ->
    (1 <= invocations (trace_of (generateWithRetry operation retries delay w))
       <= retries + 1)%Z
    /\ (invocations (trace_of (generateWithRetry_default operation w)) <= 4)%Z
    /\ (total_suspension (trace_of (generateWithRetry_default operation w))
        <= 2000 + 4000 + 8000)%Z.
Proof.
  intros W T operation retries delay w Hr.
  split; [|split].
  - pose proof (retry_loop_invocations (Z.to_nat retries) operation
                                       retries delay w) as H.
    unfold generateWithRetry. lia.
  - pose proof (retry_loop_invocations 3 operation 3 2000 w) as H.
    unfold generateWithRetry_default, generateWithRetry.
    change (Z.to_nat 3) with 3%nat. lia.
  - pose proof (@retry_loop_suspension W T 3 operation 3 2000 w ltac:(lia))
      as H.
    unfold generateWithRetry_default, generateWithRetry.
    change (Z.to_nat 3) with 3%nat.
    change (2000 * (2 ^ Z.of_nat 3 - 1))%Z with 14000%Z in H. lia.
Qed.

Lemma generateWithRetry_attempts_bounded_witness :
  (1 <= invocations
          (trace_of (generateWithRetry (always_fails unit error_429)
                                       5 100 0%nat)) <= 5 + 1)%Z.
Proof.
  apply (@generateWithRetry_attempts_bounded nat unit
           (always_fails unit error_429) 5 100 0%nat).
  lia.
Defined.

(** For any starting delay, the total suspension is below
    [delay * (2 ^ retries - 1)]. *)
Lemma generateWithRetry_suspension_bounded (W T : Type)
      (operation : Operation W T) (retries delay : Z) (w : W) :
  (0 <= retries)%Z -> (0 <= delay)%Z ->
  (total_suspension (trace_of (generateWithRetry operation retries delay w))
   <= delay * (2 ^ retries - 1))%Z.
Proof.
  intros Hr Hd.
  pose proof (@retry_loop_suspension W T (Z.to_nat retries) operation
                retries delay w Hd) as H.
  rewrite Z2Nat.id in H by assumption.
  unfold generateWithRetry. lia.
Qed.

(** C3.  If the operation fails twice with status 429 and succeeds on its
    third call, the wrapper with the default parameters returns that third
    result, after three invocations and exactly two suspensions, of 2000 ms
    and then 4000 ms. *)
Theorem two_429_failures_then_success :
  forall (W T : Type) (operation : Operation W T)
         (w0 w1 w2 w3 : W) (e1 e2 : JsError) (v : T),
    operation w0 = (Rejected e1, w1) ->
    operation w1 = (Rejected e2, w2) ->
    operation w2 = (Resolved v, w3) ->
    retry_status e1 = JsNum 429 ->
    retry_status e2 = JsNum 429 ->
    generateWithRetry_default operation w0 =
      (Resolved v,
       [Invoke; Warn 2000 3; Suspend 2000;
        Invoke; Warn 4000 2; Suspend 4000;
        Invoke], w3)
    /\ suspensions (trace_of (generateWithRetry_default operation w0))
       = [2000; 4000]%Z.
Proof.
  intros W T operation w0 w1 w2 w3 e1 e2 v H0 H1 H2 S1 S2.
  assert (R1 : isRateLimit e1 = true)
    by (unfold isRateLimit; rewrite S1; reflexivity).
  assert (R2 : isRateLimit e2 = true)
    by (unfold isRateLimit; rewrite S2; reflexivity).
  assert (E : generateWithRetry_default operation w0 =
              (Resolved v,
               [Invoke; Warn 2000 3; Suspend 2000;
                Invoke; Warn 4000 2; Suspend 4000;
                Invoke], w3)).
  { unfold generateWithRetry_default, generateWithRetry.
    change (Z.to_nat 3) with 3%nat.
    cbn [retry_loop]. rewrite H0, R1. cbn [andb Z.ltb Z.compare].
    change (3 - 1)%Z with 2%Z. change (2000 * 2)%Z with 4000%Z.
    rewrite H1, R2. cbn [andb Z.ltb Z.compare].
    change (2 - 1)%Z with 1%Z. change (4000 * 2)%Z with 8000%Z.
    rewrite H2. reflexivity. }
  split; [exact E|]. rewrite E. reflexivity.
Qed.

Lemma two_429_failures_then_success_witness :
  generateWithRetry_default (fails_then_succeeds 2 error_429 7%Z) 0%nat =
    (Resolved 7%Z,
     [Invoke; Warn 2000 3; Suspend 2000;
      Invoke; Warn 4000 2; Suspend 4000;
      Invoke], 3%nat).
Proof.
  apply (@two_429_failures_then_success nat Z
           (fails_then_succeeds 2 error_429 7%Z)
           0%nat 1%nat 2%nat 3%nat error_429 error_429 7%Z);
    reflexivity.
Defined.

(* ================================================================== *)
(** * What the caller sees when the budget runs out *)








(* ================================================================== *)
(** * Facts about prefixes, suffixes and substrings *)

Lemma starts_with_app p r : starts_with p (p ++ r) = true.
Proof.
  induction p as [|c p IH]; [reflexivity|].
  cbn. rewrite N.eqb_refl. exact IH.
Qed.

Lemma starts_with_inv p : forall s,
  starts_with p s = true -> s = p ++ skipn (List.length p) s.
Proof.
  induction p as [|c p IH]; intros s H; [reflexivity|].
  destruct s as [|d s]; [discriminate|].
  cbn in H. apply andb_prop in H. destruct H as [Hc Hp].
  apply N.eqb_eq in Hc. subst d. cbn. f_equal. apply IH, Hp.
Qed.

Lemma starts_with_app_l p : forall a b,
  starts_with p a = true -> starts_with p (a ++ b) = true.
Proof.
  induction p as [|c p IH]; intros a b H; [reflexivity|].
  destruct a as [|d a]; [discriminate|].
  cbn in H |- *. apply andb_prop in H. destruct H as [Hc Hp].
  rewrite Hc. cbn. apply IH, Hp.
Qed.

Lemma starts_with_longer_false p q : forall s,
  starts_with p s = false -> starts_with (p ++ q) s = false.
Proof.
  induction p as [|c p IH]; intros s H; [discriminate|].
  destruct s as [|d s]; [reflexivity|].
  cbn in H |- *. destruct (N.eqb c d); [cbn in *; apply IH, H | reflexivity].
Qed.

Lemma ends_with_app a p : ends_with p (a ++ p) = true.
Proof.
  unfold ends_with. rewrite rev_app_distr. apply starts_with_app.
Qed.

Lemma ends_with_inv p s :
  ends_with p s = true ->
  s = firstn (List.length s - List.length p) s ++ p.
Proof.
  unfold ends_with. intros H.
  apply starts_with_inv in H.
  rewrite length_rev, skipn_rev in H.
  apply (f_equal (@rev N)) in H.
  rewrite rev_involutive, rev_app_distr, !rev_involutive in H.
  exact H.
Qed.

Lemma includes_starts n s : starts_with n s = true -> includes n s = true.
Proof.
  intros H. destruct s; cbn; rewrite H; reflexivity.
Qed.

Lemma includes_app_r n a : forall b,
  includes n b = true -> includes n (a ++ b) = true.
Proof.
  induction a as [|c a IH]; intros b H; [exact H|].
  cbn. rewrite (IH b H). apply orb_true_r.
Qed.

Lemma includes_app_l n : forall a b,
  includes n a = true -> includes n (a ++ b) = true.
Proof.
  induction a as [|c a IH]; intros b H.
  - cbn in H. rewrite orb_false_r in H.
    apply includes_starts. exact (starts_with_app_l n [] b H).
  - cbn in H. apply orb_prop in H. destruct H as [H|H].
    + apply includes_starts. exact (starts_with_app_l n (c :: a) b H).
    + cbn. rewrite (IH b H). apply orb_true_r.
Qed.

Lemma includes_mid n a b : includes n (a ++ n ++ b) = true.
Proof.
  apply includes_app_r, includes_starts, starts_with_app.
Qed.

Lemma includes_false_starts n s :
  includes n s = false -> starts_with n s = false.
Proof.
  destruct (starts_with n s) eqn:H; [|reflexivity].
  rewrite (includes_starts n s H). discriminate.
Qed.

Lemma includes_false_ends n s :
  includes n s = false -> ends_with n s = false.
Proof.
  destruct (ends_with n s) eqn:H; [|reflexivity].
  intros Hi.
  assert (Ht : includes n s = true).
  { rewrite (ends_with_inv n s H).
    apply includes_app_r, includes_starts.
    rewrite <- (app_nil_r n) at 2. apply starts_with_app. }
  congruence.
Qed.

Lemma skip_spaces_length s : (List.length (skip_spaces s) <= List.length s)%nat.
Proof.
  induction s as [|c s IH]; cbn; [lia|].
  destruct (is_space c); cbn; lia.
Qed.

Lemma skip_spaces_fixed_head c s :
  skip_spaces (c :: s) = c :: s -> is_space c = false.
Proof.
  cbn. destruct (is_space c); [|reflexivity].
  intros H. pose proof (skip_spaces_length s) as L.
  rewrite H in L. cbn in L. lia.
Qed.

(* ================================================================== *)
(** * The output normalizer *)

Lemma replace_leading_length p s :
  (List.length (replace_leading p s) <= List.length s)%nat.
Proof.
  unfold replace_leading. destruct (starts_with p s); [|lia].
  pose proof (skip_spaces_length (skipn (List.length p) s)) as L.
  rewrite length_skipn in L. lia.
Qed.

Lemma replace_leading_shrinks p s :
  p <> [] -> starts_with p s = true ->
  (List.length (replace_leading p s) < List.length s)%nat.
Proof.
  intros Hp H. unfold replace_leading. rewrite H.
  pose proof (skip_spaces_length (skipn (List.length p) s)) as L.
  rewrite length_skipn in L.
  pose proof (f_equal (@List.length N) (starts_with_inv p s H)) as E.
  rewrite length_app in E.
  destruct p; [congruence|]. cbn [List.length] in *. lia.
Qed.

Lemma replace_trailing_length p s :
  (List.length (replace_trailing p s) <= List.length s)%nat.
Proof.
  unfold replace_trailing. destruct (ends_with p s); [|lia].
  rewrite length_firstn. lia.
Qed.

Lemma replace_trailing_shrinks p s :
  p <> [] -> ends_with p s = true ->
  (List.length (replace_trailing p s) < List.length s)%nat.
Proof.
  intros Hp H. unfold replace_trailing. rewrite H.
  pose proof (f_equal (@List.length N) (ends_with_inv p s H)) as E.
  rewrite length_app in E. rewrite length_firstn.
  destruct p; [congruence|]. cbn [List.length] in *. lia.
Qed.

Lemma replace_trailing_app a p : replace_trailing p (a ++ p) = a.
Proof.
  unfold replace_trailing. rewrite ends_with_app.
  rewrite length_app, Nat.add_sub, firstn_app, Nat.sub_diag, firstn_all.
  cbn. apply app_nil_r.
Qed.

Lemma html_fence_extends_fence : html_fence = fence ++ js "html".
Proof. reflexivity. Qed.

(** A text that neither starts nor ends with a fence is left as it is. *)
Lemma normalize_unfenced s :
  starts_with fence s = false -> ends_with fence s = false ->
  normalize s = s.
Proof.
  intros Hs He. unfold normalize, replace_leading, replace_trailing.
  rewrite html_fence_extends_fence, (starts_with_longer_false _ _ _ Hs).
  rewrite Hs, He. reflexivity.
Qed.

Lemma normalize_length s : (List.length (normalize s) <= List.length s)%nat.
Proof.
  unfold normalize.
  pose proof (replace_leading_length html_fence s).
  pose proof (replace_leading_length fence (replace_leading html_fence s)).
  pose proof (replace_trailing_length fence
                (replace_leading fence (replace_leading html_fence s))).
  lia.
Qed.

Lemma fence_not_empty : fence <> [].
Proof. discriminate. Qed.

Lemma html_fence_not_empty : html_fence <> [].
Proof. discriminate. Qed.

(** A text that starts or ends with a fence gets strictly shorter. *)
Lemma normalize_fenced_shrinks s :
  starts_with fence s = true \/ ends_with fence s = true ->
  (List.length (normalize s) < List.length s)%nat.
Proof.
  intros H. unfold normalize.
  pose proof (replace_leading_length html_fence s) as L1.
  pose proof (replace_leading_length fence (replace_leading html_fence s))
    as L2.
  pose proof (replace_trailing_length fence
                (replace_leading fence (replace_leading html_fence s))) as L3.
  destruct (starts_with html_fence s) eqn:Hh.
  { pose proof (@replace_leading_shrinks _ s html_fence_not_empty Hh). lia. }
  assert (E1 : replace_leading html_fence s = s)
    by (unfold replace_leading; rewrite Hh; reflexivity).
  rewrite E1 in *.
  destruct (starts_with fence s) eqn:Hf.
  { pose proof (@replace_leading_shrinks _ s fence_not_empty Hf). lia. }
  assert (E2 : replace_leading fence s = s)
    by (unfold replace_leading; rewrite Hf; reflexivity).
  rewrite E2 in *.
  destruct H as [H|H]; [discriminate|].
  exact (@replace_trailing_shrinks _ s fence_not_empty H).
Qed.

(** C5, as the code has it.  A text that neither starts nor ends with a
    fence is returned as it is, and a second pass changes nothing exactly
    when the result of the first neither starts nor ends with a fence. *)
Theorem normalize_idempotent_iff_result_unfenced :
  forall s : JsString,
    (normalize (normalize s) = normalize s <->
     (starts_with fence (normalize s) = false
      /\ ends_with fence (normalize s) = false))
    /\ (starts_with fence s = false -> ends_with fence s = false ->
        normalize s = s).
Proof.
  intros s. split; [split|].
  - intros Hfix.
    destruct (starts_with fence (normalize s)) eqn:Hs.
    { pose proof (normalize_fenced_shrinks (normalize s) (or_introl Hs)) as L.
      rewrite Hfix in L. lia. }
    destruct (ends_with fence (normalize s)) eqn:He.
    { pose proof (normalize_fenced_shrinks (normalize s) (or_intror He)) as L.
      rewrite Hfix in L. lia. }
    split; reflexivity.
  - intros [Hs He]. apply normalize_unfenced; assumption.
  - apply normalize_unfenced.
Qed.

Lemma normalize_idempotent_iff_result_unfenced_witness :
  normalize (js "<!DOCTYPE html>") = js "<!DOCTYPE html>".
Proof.
  apply (proj2 (normalize_idempotent_iff_result_unfenced
                  (js "<!DOCTYPE html>")));
    vm_compute; reflexivity.
Defined.

(** C5 as stated fails: a doubled opening fence needs two passes. *)
Lemma normalize_not_idempotent :
  normalize (js "``````x") = js "```x"
  /\ normalize (normalize (js "``````x")) = js "x"
  /\ normalize (normalize (js "``````x")) <> normalize (js "``````x").
Proof.
  split; [vm_compute; reflexivity|].
  split; [vm_compute; reflexivity|].
  vm_compute. discriminate.
Qed.

Lemma skipn_prefix (p r : JsString) : skipn (List.length p) (p ++ r) = r.
Proof.
  induction p as [|c p IH]; [reflexivity | exact IH].
Qed.

Lemma replace_leading_app p r :
  replace_leading p (p ++ r) = skip_spaces r.
Proof.
  unfold replace_leading. rewrite starts_with_app, skipn_prefix. reflexivity.
Qed.

Lemma skip_spaces_fixed_app b x :
  b <> [] -> skip_spaces b = b -> skip_spaces (b ++ x) = b ++ x.
Proof.
  destruct b as [|c b]; [congruence|].
  intros _ H. apply skip_spaces_fixed_head in H.
  cbn. rewrite H. reflexivity.
Qed.

(** A fence cannot straddle a line break. *)
Lemma starts_with_fence_before_nl b x :
  starts_with fence (b ++ nl ++ x) = starts_with fence b.
Proof.
  destruct b as [|c1 [|c2 [|c3 b]]]; cbn;
    repeat match goal with
           | |- context [N.eqb ?a ?c] => destruct (N.eqb a c); cbn
           end; reflexivity.
Qed.

Lemma includes_fence_before_nl b :
  includes fence (b ++ nl) = includes fence b.
Proof.
  induction b as [|c b IH]; [reflexivity|].
  change ((c :: b) ++ nl) with (c :: (b ++ nl)).
  cbn [includes]. rewrite IH. f_equal.
  rewrite <- (app_nil_r nl).
  exact (starts_with_fence_before_nl (c :: b) []).
Qed.

(** C6, as the code has it.  For the response made of the opening fence
    with its language tag, a line break, a body, a line break and the
    closing fence, where the body begins with a character that is neither
    white space nor the start of a fence, the normalizer returns the body
    followed by the line break that preceded the closing fence; the result
    holds a fence only if the body does.  A text that holds no fence is
    returned as it is. *)
Theorem normalize_fenced_html_document :
  (forall body : JsString,
      body <> [] -> skip_spaces body = body ->
      starts_with fence body = false ->
      normalize (html_fence ++ nl ++ body ++ nl ++ fence) = body ++ nl
      /\ includes fence (body ++ nl) = includes fence body)
  /\ (forall s : JsString, includes fence s = false -> normalize s = s).
Proof.
  split.
  - intros body Hne Hsp Hf. split; [|apply includes_fence_before_nl].
    unfold normalize.
    rewrite replace_leading_app.
    change (skip_spaces (nl ++ body ++ nl ++ fence))
      with (skip_spaces (body ++ nl ++ fence)).
    rewrite (skip_spaces_fixed_app _ Hne Hsp).
    unfold replace_leading at 1.
    rewrite starts_with_fence_before_nl, Hf.
    rewrite app_assoc. apply replace_trailing_app.
  - intros s H. apply normalize_unfenced.
    + apply includes_false_starts, H.
    + apply includes_false_ends, H.
Qed.

Lemma normalize_fenced_html_document_witness :
  normalize (html_fence ++ nl ++ js "<!DOCTYPE html><html></html>"
             ++ nl ++ fence)
  = js "<!DOCTYPE html><html></html>" ++ nl
  /\ normalize (js "<p>hi</p>") = js "<p>hi</p>".
Proof.
  destruct normalize_fenced_html_document as [Hdoc Hplain].
  split.
  - apply (Hdoc (js "<!DOCTYPE html><html></html>")).
    + discriminate.
    + vm_compute. reflexivity.
    + vm_compute. reflexivity.
  - apply (Hplain (js "<p>hi</p>")). vm_compute. reflexivity.
Defined.

(** C6 as stated fails: the line break before the closing fence stays, so
    the result is not exactly the body. *)
Lemma normalize_keeps_line_break_before_closing_fence :
  normalize (js "```html" ++ nl ++ js "<!DOCTYPE html><html></html>"
             ++ nl ++ js "```")
  = js "<!DOCTYPE html><html></html>" ++ nl
  /\ normalize (js "```html" ++ nl ++ js "<!DOCTYPE html><html></html>"
                ++ nl ++ js "```")
     <> js "<!DOCTYPE html><html></html>".
Proof.
  split; [vm_compute; reflexivity|].
  vm_compute. discriminate.
Qed.

(* ================================================================== *)
(** * The request builder *)

Import AssetRevision.

Lemma includes_refl n : includes n n = true.
Proof.
  apply includes_starts. rewrite <- (app_nil_r n) at 2. apply starts_with_app.
Qed.

Lemma forEach_append_acc block : forall assets index acc,
  forEach_append block assets index acc =
  acc ++ forEach_append block assets index [].
Proof.
  induction assets as [|a rest IH]; intros index acc; cbn [forEach_append].
  - symmetry. apply app_nil_r.
  - rewrite (IH _ (acc ++ block a index)), (IH _ ([] ++ block a index)).
    cbn [app]. symmetry. apply app_assoc.
Qed.

(** Every attachment contributes its block, in one piece. *)
Lemma forEach_append_In block : forall assets index acc a,
  In a assets ->
  exists pre post k,
    forEach_append block assets index acc = pre ++ block a k ++ post.
Proof.
  induction assets as [|b rest IH]; intros index acc a Hin; [contradiction|].
  cbn [forEach_append]. destruct Hin as [Heq|Hin].
  - subst b. exists acc, (forEach_append block rest (index + 1) []), index.
    rewrite forEach_append_acc. symmetry. apply app_assoc.
  - apply IH, Hin.
Qed.

Lemma mapping_instruction_in_block asset index :
  includes (mapping_instruction asset) (asset_block asset index) = true.
Proof.
  unfold asset_block. do 2 apply includes_app_r. apply includes_refl.
Qed.

Lemma clean_name_units s :
  Forall (fun c => path_unit_ok c = true \/ c = 95%N) (clean_name s).
Proof.
  unfold clean_name. apply Forall_map, Forall_forall. intros c _.
  destruct (path_unit_ok c) eqn:H; [left; exact H | right; reflexivity].
Qed.

(** C7.  For one attachment named "My Photo.png" the payload is the single
    text part whose prompt pairs the virtual path
    "/assets/uploads/My_Photo.png" with the attachment's base64 data and
    the instruction to insert that data wherever the path would be used.
    For any attachment list, each attachment gets such a pairing, and its
    virtual path is "/assets/uploads/" followed by the display name with
    every code unit outside a-z, A-Z, 0-9, dot and hyphen replaced by an
    underscore. *)
Theorem my_photo_virtual_path :
  forall (SYSTEM_INSTRUCTION prompt mime b64 : JsString),
    let asset := mkAsset (js "My Photo.png") mime b64 in
    virtualPath asset = js "/assets/uploads/My_Photo.png"
    /\ parts (bringToLife_request SYSTEM_INSTRUCTION prompt [asset])
       = [TextPart (constructedPrompt prompt [asset])]
    /\ includes
         ((js "Virtual Path: " ++ js "/assets/uploads/My_Photo.png" ++ nl)
          ++ (js "MIME: " ++ mime ++ nl)
          ++ (js "DATA (Base64): data:" ++ mime ++ js ";base64," ++ b64 ++ nl)
          ++ (js "INSTRUCTION: Wherever the code would logically use " ++ dq
              ++ js "/assets/uploads/My_Photo.png" ++ dq
              ++ js " (or if the user asked for this file), insert the DATA string above."
              ++ nl))
         (constructedPrompt prompt [asset]) = true
    /\ (forall (assets : list AssetFile) (a : AssetFile),
           In a assets ->
           includes (mapping_instruction a) (constructedPrompt prompt assets)
           = true)
    /\ (forall a : AssetFile,
           virtualPath a = js "/assets/uploads/" ++ clean_name (name a)
           /\ List.length (clean_name (name a)) = List.length (name a)
           /\ Forall (fun c => path_unit_ok c = true \/ c = 95%N)
                     (clean_name (name a))
           /\ (forall i c, nth_error (name a) i = Some c ->
                           nth_error (clean_name (name a)) i
                           = Some (if path_unit_ok c then c else 95%N))).
Proof.
  intros SI prompt mime b64 asset.
  assert (General : forall (assets : list AssetFile) (a : AssetFile),
             In a assets ->
             includes (mapping_instruction a) (constructedPrompt prompt assets)
             = true).
  { intros assets a Hin. unfold constructedPrompt.
    destruct assets as [|b rest]; [contradiction|].
    cbn [List.length Nat.ltb Nat.leb].
    apply includes_app_l.
    match goal with
    | |- context [forEach_append ?blk ?l ?i ?acc] =>
        destruct (forEach_append_In blk l i acc a Hin)
          as (pre & post & k & E)
    end.
    rewrite E.
    apply includes_app_r, includes_app_l, mapping_instruction_in_block. }
  split; [reflexivity|].
  split; [reflexivity|].
  split; [exact (General [asset] asset (or_introl eq_refl))|].
  split; [exact General|].
  intros a. split; [reflexivity|].
  split; [apply length_map|].
  split; [apply clean_name_units|].
  intros i c H. unfold clean_name. rewrite nth_error_map, H. reflexivity.
Qed.

Lemma my_photo_virtual_path_witness :
  includes
    (mapping_instruction (mkAsset (js "icon 2.svg") (js "image/svg+xml") (js "PHN2Zz4=")))
    (constructedPrompt (js "Show my files")
       [mkAsset (js "My Photo.png") (js "image/png") (js "iVBORw0KGgo=");
        mkAsset (js "icon 2.svg") (js "image/svg+xml") (js "PHN2Zz4=")])
  = true.
Proof.
  apply (my_photo_virtual_path [] (js "Show my files")
           (js "image/png") (js "iVBORw0KGgo=")).
  right. left. reflexivity.
Defined.

(** C8.  In the asset revision the prompt, which is the whole payload,
    ends with the line "Generate the fully functional HTML application
    now." for every prompt text and attachment list.  In the image
    revision the text part of the payload ends with "Generate a web
    interface response." when there are images and with "Generate the web
    interface for this request." when there are none. *)
Theorem prompt_ends_with_closing_instruction :
  forall (SYSTEM_INSTRUCTION prompt : JsString)
         (assets : list AssetFile) (images : list ImagePart),
    ends_with (nl ++ js "Generate the fully functional HTML application now.")
              (constructedPrompt prompt assets) = true
    /\ parts (bringToLife_request SYSTEM_INSTRUCTION prompt assets)
       = [TextPart (constructedPrompt prompt assets)]
    /\ ends_with
         (if (0 <? List.length images)%nat
          then js "Generate a web interface response."
          else js "Generate the web interface for this request.")
         (ImageRevision.finalPrompt prompt images) = true
    /\ parts (ImageRevision.bringToLife_request SYSTEM_INSTRUCTION prompt images)
       = TextPart (ImageRevision.finalPrompt prompt images)
         :: List.map InlineDataPart images.
Proof.
  intros SI prompt assets images.
  split; [apply ends_with_app|].
  split; [reflexivity|].
  split; [|reflexivity].
  unfold ImageRevision.finalPrompt.
  destruct (0 <? List.length images)%nat.
  - change (js ". Generate a web interface response.")
      with (js ". " ++ js "Generate a web interface response.").
    rewrite !app_assoc. apply ends_with_app.
  - change (js ". Generate the web interface for this request.")
      with (js ". " ++ js "Generate the web interface for this request.").
    rewrite !app_assoc. apply ends_with_app.
Qed.

(* ================================================================== *)
(** * Responses without text *)

Lemma text_or_absent (response : GenerateContentResponse) (d : JsString) :
  text response = None \/ text response = Some [] ->
  text_or (text response) d = d.
Proof.
  intros [H|H]; rewrite H; reflexivity.
Qed.

Lemma normalize_placeholder : normalize placeholder = placeholder.
Proof. vm_compute. reflexivity. Qed.

(** C9.  In both revisions, when the remote call (through the retry
    wrapper) succeeds with a response whose text is absent or empty,
    [bringToLife] resolves, with the placeholder
    "<!-- Failed to generate content -->", which is an HTML comment and
    holds no html element. *)
Theorem bringToLife_placeholder_on_empty_text :
  forall (W : Type) (SYSTEM_INSTRUCTION : JsString)
         (generateContent :
            GenerateContentParameters -> Operation W GenerateContentResponse)
         (prompt : JsString),
    (forall (assets : list AssetFile) (w : W)
            (response : GenerateContentResponse) (tr : Trace) (w' : W),
        generateWithRetry_default
          (generateContent
             (AssetRevision.bringToLife_request SYSTEM_INSTRUCTION prompt assets))
          w = (Resolved response, tr, w') ->
        text response = None \/ text response = Some [] ->
        AssetRevision.bringToLife SYSTEM_INSTRUCTION generateContent
                                  prompt assets w
        = (Resolved placeholder, tr, w'))
    /\ (forall (images : list ImagePart) (w : W)
               (response : GenerateContentResponse) (tr : Trace) (w' : W),
           generateWithRetry_default
             (generateContent
                (ImageRevision.bringToLife_request SYSTEM_INSTRUCTION prompt images))
             w = (Resolved response, tr, w') ->
           text response = None \/ text response = Some [] ->
           ImageRevision.bringToLife SYSTEM_INSTRUCTION generateContent
                                     prompt images w
           = (Resolved placeholder, tr, w'))
    /\ placeholder = js "<!-- Failed to generate content -->"
    /\ starts_with (js "<!--") placeholder = true
    /\ ends_with (js "-->") placeholder = true
    /\ includes (js "<html") placeholder = false.
Proof.
  intros W SI generateContent prompt.
  split; [|split].
  - intros assets w response tr w' Hrun Htext.
    unfold AssetRevision.bringToLife. rewrite Hrun.
    rewrite (text_or_absent _ _ Htext), normalize_placeholder. reflexivity.
  - intros images w response tr w' Hrun Htext.
    unfold ImageRevision.bringToLife. rewrite Hrun.
    rewrite (text_or_absent _ _ Htext), normalize_placeholder. reflexivity.
  - repeat split; vm_compute; reflexivity.
Qed.

Lemma bringToLife_placeholder_on_empty_text_witness :
  AssetRevision.bringToLife [] replies_without_text (js "Show me the news")
    [mkAsset (js "My Photo.png") (js "image/png") (js "iVBORw0KGgo=")] 0%nat
  = (Resolved placeholder, [Invoke], 1%nat)
  /\ ImageRevision.bringToLife [] replies_with_empty_text
       (js "Show me the news") [] 0%nat
     = (Resolved placeholder, [Invoke], 1%nat).
Proof.
  split.
  - apply (proj1 (@bringToLife_placeholder_on_empty_text nat []
                    replies_without_text (js "Show me the news")))
      with (response := {| text := None |}).
    + reflexivity.
    + left. reflexivity.
  - apply (proj1 (proj2 (@bringToLife_placeholder_on_empty_text nat []
                           replies_with_empty_text (js "Show me the news"))))
      with (response := {| text := Some [] |}).
    + reflexivity.
    + right. reflexivity.
Defined.

(** The stripping on a text wrapped in the two fences. *)
Lemma normalize_wrapped (body : JsString) :
  body <> [] -> skip_spaces body = body -> starts_with fence body = false ->
  normalize (html_fence ++ nl ++ body ++ nl ++ fence) = body ++ nl.
Proof.
  intros Hne Hsp Hf. unfold normalize.
  rewrite replace_leading_app.
  change (skip_spaces (nl ++ body ++ nl ++ fence))
    with (skip_spaces (body ++ nl ++ fence)).
  rewrite (skip_spaces_fixed_app _ Hne Hsp).
  unfold replace_leading at 1.
  rewrite starts_with_fence_before_nl, Hf.
  rewrite app_assoc. apply replace_trailing_app.
Qed.

(** C10.  In both revisions, when the remote call (through the retry
    wrapper) succeeds with a response whose text is absent or empty,
    [refineCode] resolves with the fence stripping applied to
    [currentHtml]: the three replacements of the source, in their order.
    The result is [currentHtml] itself when that neither starts nor ends
    with a fence; it is strictly shorter than [currentHtml] when that
    starts or ends with a fence; and when [currentHtml] is a body wrapped
    in the opening fence with its language tag, a line break, and a line
    break with the closing fence, the result is the body followed by a
    line break. *)
Theorem refineCode_falls_back_to_currentHtml :
  forall (W : Type) (SYSTEM_INSTRUCTION : JsString)
         (generateContent :
            GenerateContentParameters -> Operation W GenerateContentResponse)
         (currentHtml refinementPrompt : JsString),
    (forall (newAssets : list AssetFile) (w : W)
            (response : GenerateContentResponse) (tr : Trace) (w' : W),
        generateWithRetry_default
          (generateContent
             (AssetRevision.refineCode_request SYSTEM_INSTRUCTION
                currentHtml refinementPrompt newAssets))
          w = (Resolved response, tr, w') ->
        text response = None \/ text response = Some [] ->
        AssetRevision.refineCode SYSTEM_INSTRUCTION generateContent
                                 currentHtml refinementPrompt newAssets w
        = (Resolved (normalize currentHtml), tr, w'))
    /\ (forall (w : W) (response : GenerateContentResponse)
               (tr : Trace) (w' : W),
           generateWithRetry_default
             (generateContent
                (ImageRevision.refineCode_request SYSTEM_INSTRUCTION
                   currentHtml refinementPrompt))
             w = (Resolved response, tr, w') ->
           text response = None \/ text response = Some [] ->
           ImageRevision.refineCode SYSTEM_INSTRUCTION generateContent
                                    currentHtml refinementPrompt w
           = (Resolved (normalize currentHtml), tr, w'))
    /\ (starts_with fence currentHtml = false ->
        ends_with fence currentHtml = false ->
        normalize currentHtml = currentHtml)
    /\ normalize currentHtml
       = replace_trailing (js "```")
           (replace_leading (js "```")
              (replace_leading (js "```html") currentHtml))
    /\ (starts_with fence currentHtml = true
        \/ ends_with fence currentHtml = true ->
        (List.length (normalize currentHtml) < List.length currentHtml)%nat)
    /\ (forall body : JsString,
           body <> [] -> skip_spaces body = body ->
           starts_with fence body = false ->
           currentHtml = js "```html" ++ nl ++ body ++ nl ++ js "```" ->
           normalize currentHtml = body ++ nl).
Proof.
  intros W SI generateContent currentHtml refinementPrompt.
  split; [|split; [|split; [|split; [|split]]]].
  - intros newAssets w response tr w' Hrun Htext.
    unfold AssetRevision.refineCode. rewrite Hrun.
    rewrite (text_or_absent _ _ Htext). reflexivity.
  - intros w response tr w' Hrun Htext.
    unfold ImageRevision.refineCode. rewrite Hrun.
    rewrite (text_or_absent _ _ Htext). reflexivity.
  - apply normalize_unfenced.
  - reflexivity.
  - apply normalize_fenced_shrinks.
  - intros body Hne Hsp Hf ->. apply normalize_wrapped; assumption.
Qed.

Lemma refineCode_falls_back_to_currentHtml_witness :
  AssetRevision.refineCode [] replies_without_text
    (js "<!DOCTYPE html><html></html>") (js "Make it blue") [] 0%nat
  = (Resolved (normalize (js "<!DOCTYPE html><html></html>")), [Invoke], 1%nat)
  /\ ImageRevision.refineCode [] replies_with_empty_text
       (js "<!DOCTYPE html><html></html>") (js "Make it blue") 0%nat
     = (Resolved (normalize (js "<!DOCTYPE html><html></html>")),
        [Invoke], 1%nat)
  /\ normalize (js "<!DOCTYPE html><html></html>")
     = js "<!DOCTYPE html><html></html>"
  /\ normalize (js "```html" ++ nl ++ js "<p>x</p>" ++ nl ++ js "```")
     = js "<p>x</p>" ++ nl.
Proof.
  pose proof (@refineCode_falls_back_to_currentHtml nat []
                replies_without_text (js "<!DOCTYPE html><html></html>")
                (js "Make it blue")) as [Hasset [_ [Hsame _]]].
  pose proof (@refineCode_falls_back_to_currentHtml nat []
                replies_with_empty_text (js "<!DOCTYPE html><html></html>")
                (js "Make it blue")) as [_ [Himage _]].
  pose proof (@refineCode_falls_back_to_currentHtml nat []
                replies_without_text
                (js "```html" ++ nl ++ js "<p>x</p>" ++ nl ++ js "```")
                (js "Make it blue")) as [_ [_ [_ [_ [_ Hwrapped]]]]].
  split; [|split; [|split]].
  - apply Hasset with (response := {| text := None |}).
    + reflexivity.
    + left. reflexivity.
  - apply Himage with (response := {| text := Some [] |}).
    + reflexivity.
    + right. reflexivity.
  - apply Hsame; vm_compute; reflexivity.
  - apply Hwrapped.
    + discriminate.
    + vm_compute. reflexivity.
    + vm_compute. reflexivity.
    + reflexivity.
Defined.

(* ================================================================== *)
(** * Further properties of the retry wrapper *)

Lemma retry_loop_schedule (W T : Type) budget (operation : Operation W T) :
  forall retries delay w,
    suspensions (trace_of (retry_loop budget operation retries delay w)) =
    List.map (fun i => (delay * 2 ^ Z.of_nat i)%Z)
      (seq 0 (Z.to_nat
                (invocations
                   (trace_of (retry_loop budget operation retries delay w))
                 - 1))).
Proof.
  induction budget as [|n IH]; intros retries delay w; cbn [retry_loop];
    destruct (operation w) as [[v|e] w1]; try reflexivity;
    destruct (isRateLimit e && (0 <? retries)%Z); try reflexivity.
  specialize (IH (retries - 1)%Z (delay * 2)%Z w1).
  pose proof (retry_loop_invocations n operation (retries - 1) (delay * 2) w1)
    as Hinv.
  destruct (retry_loop n operation (retries - 1) (delay * 2) w1)
    as [[o tr] w2].
  revert IH Hinv. run_simpl. intros IH Hinv.
  replace (Z.to_nat (1 + invocations tr - 1))
    with (S (Z.to_nat (invocations tr - 1))) by lia.
  cbn [seq List.map]. rewrite <- seq_shift, map_map, IH.
  f_equal; [change (Z.of_nat 0) with 0%Z; rewrite Z.pow_0_r; lia|].
  apply map_ext. intros i.
  rewrite Nat2Z.inj_succ, Z.pow_succ_r by lia. ring.
Qed.

(** X1.  The suspensions of a run are [delay], [2 * delay], [4 * delay],
    ..., one before each invocation after the first: the [i]-th (from 0)
    lasts [delay * 2 ^ i]. *)
Theorem generateWithRetry_backoff_schedule :
  forall (W T : Type) (operation : Operation W T) (retries delay : Z) (w : W),
    suspensions (trace_of (generateWithRetry operation retries delay w)) =
    List.map (fun i => (delay * 2 ^ Z.of_nat i)%Z)
      (seq 0 (Z.to_nat
                (invocations
                   (trace_of (generateWithRetry operation retries delay w))
                 - 1))).
Proof.
  intros. unfold generateWithRetry. apply retry_loop_schedule.
Qed.

Lemma retry_loop_last (W T : Type) budget (operation : Operation W T) :
  forall retries delay w o tr w',
    retry_loop budget operation retries delay w = (o, tr, w') ->
    exists w_last, operation w_last = (o, w').
Proof.
  induction budget as [|n IH]; intros retries delay w o tr w';
    cbn [retry_loop];
    destruct (operation w) as [[v|e] w1] eqn:Hop;
    try (intros H; inversion H; subst; eauto; fail);
    destruct (isRateLimit e && (0 <? retries)%Z);
    try (intros H; inversion H; subst; eauto; fail).
  destruct (retry_loop n operation (retries - 1) (delay * 2) w1)
    as [[o1 tr1] w2] eqn:Hrec.
  cbn [after]. intros H; inversion H; subst.
  exact (IH _ _ _ _ _ _ Hrec).
Qed.

(** X2.  The wrapper neither invents nor swallows a result: whatever it
    returns or throws is what the last invocation of the operation
    returned or threw, and the world is the one that invocation left. *)
Theorem generateWithRetry_outcome_is_last_invocation :
  forall (W T : Type) (operation : Operation W T) (retries delay : Z) (w : W)
         (o : Outcome T) (tr : Trace) (w' : W),
    generateWithRetry operation retries delay w = (o, tr, w') ->
    exists w_last, operation w_last = (o, w').
Proof.
  intros W T operation retries delay w o tr w' H.
  exact (retry_loop_last _ _ _ _ _ H).
Qed.

Lemma generateWithRetry_outcome_is_last_invocation_witness :
  exists w_last,
    fails_then_succeeds 2 error_429 7%Z w_last = (Resolved 7%Z, 3%nat).
Proof.
  apply (@generateWithRetry_outcome_is_last_invocation nat Z
           (fails_then_succeeds 2 error_429 7%Z) 3 2000 0%nat
           (Resolved 7%Z)
           [Invoke; Warn 2000 3; Suspend 2000;
            Invoke; Warn 4000 2; Suspend 4000; Invoke]).
  vm_compute. reflexivity.
Defined.

(** X3.  The two classifiers disagree on a failure whose [error.status] is
    a truthy value other than 429 and 503, whose message holds no marker,
    and whose [error.error.code] is 429: the wrapper rethrows it after a
    single invocation, and [handleApiError] shows the quota alert, the one
    that says the request was retried. *)
Theorem never_retried_failure_reported_as_retried :
  forall (W T : Type) (operation : Operation W T) (retries delay : Z)
         (w w1 : W) (error : JsError),
    operation w = (Rejected error, w1) ->
    truthy (err_status error) = true ->
    strict_eq_num (err_status error) 429 = false ->
    strict_eq_num (err_status error) 503 = false ->
    includes (js "429") (retry_message error) = false ->
    includes (js "quota") (retry_message error) = false ->
    includes (js "resource_exhausted") (retry_message error) = false ->
    err_error_code error = JsNum 429 ->
    generateWithRetry operation retries delay w = (Rejected error, [Invoke], w1)
    /\ handleApiError error = QuotaLimitReached.
Proof.
  intros W T operation retries delay w w1 error Hop Ht H429 H503 M1 M2 M3 Hc.
  assert (Hs : retry_status error = err_status error).
  { unfold retry_status, js_or. rewrite Ht. cbn. rewrite Ht. reflexivity. }
  split.
  - rewrite generateWithRetry_unfold, Hop.
    unfold isRateLimit. rewrite Hs, H429, H503, M1, M2, M3. reflexivity.
  - unfold handleApiError, isQuotaError. rewrite Hc.
    cbn [strict_eq_num Z.eqb Pos.eqb].
    rewrite orb_true_r. reflexivity.
Qed.

Lemma never_retried_failure_reported_as_retried_witness :
  generateWithRetry (always_fails unit teapot_with_nested_429) 3 2000 0%nat
  = (Rejected teapot_with_nested_429, [Invoke], 1%nat)
  /\ handleApiError teapot_with_nested_429 = QuotaLimitReached.
Proof.
  apply (@never_retried_failure_reported_as_retried nat unit
           (always_fails unit teapot_with_nested_429) 3 2000 0%nat 1%nat
           teapot_with_nested_429); vm_compute; reflexivity.
Defined.

(** X4.  The generic alert of [handleApiError] always carries details:
    they are never empty and never longer than 200 code units. *)
Theorem handleApiError_details_bounded :
  forall (error : JsError) (details : JsString),
    handleApiError error = RenderFailed details ->
    (1 <= List.length details <= 200)%nat.
Proof.
  intros error details. unfold handleApiError.
  destruct (isQuotaError error); [discriminate|].
  pose proof (length_firstn 200 (handler_msg error)) as L.
  remember (firstn 200 (handler_msg error)) as d eqn:Hd. clear Hd.
  intros H. injection H as E. subst details.
  destruct d as [|c s]; cbn [str_or].
  - assert (E : List.length (js "Unknown error occurred.") = 23%nat)
      by reflexivity.
    lia.
  - cbn [List.length] in *. lia.
Qed.

Lemma handleApiError_details_bounded_witness :
  (1 <= List.length (js "internal server error") <= 200)%nat.
Proof.
  apply (handleApiError_details_bounded error_500). vm_compute. reflexivity.
Defined.

(* ================================================================== *)
(** * Further properties of the service functions *)

Lemma invocations_app tr1 tr2 :
  invocations (tr1 ++ tr2) = (invocations tr1 + invocations tr2)%Z.
Proof.
  induction tr1 as [|ev tr1 IH]; [reflexivity|].
  destruct ev; cbn [app invocations]; rewrite IH; lia.
Qed.

Lemma errors_logged_app tr1 tr2 :
  errors_logged (tr1 ++ tr2) = errors_logged tr1 ++ errors_logged tr2.
Proof.
  induction tr1 as [|ev tr1 IH]; [reflexivity|].
  destruct ev; cbn [app errors_logged]; rewrite IH; reflexivity.
Qed.

(** The wrapper itself writes no console error. *)
Lemma retry_loop_logs_nothing (W T : Type) budget
      (operation : Operation W T) :
  forall retries delay w,
    errors_logged (trace_of (retry_loop budget operation retries delay w))
    = [].
Proof.
  induction budget as [|n IH]; intros retries delay w; cbn [retry_loop];
    destruct (operation w) as [[v|e] w1]; try reflexivity;
    destruct (isRateLimit e && (0 <? retries)%Z); try reflexivity.
  specialize (IH (retries - 1)%Z (delay * 2)%Z w1).
  destruct (retry_loop n operation (retries - 1) (delay * 2) w1)
    as [[o tr] w2].
  exact IH.
Qed.

(** The shape shared by [bringToLife] and [refineCode]. *)
Lemma service_call_result (W : Type)
      (operation : Operation W GenerateContentResponse)
      (label fallback : JsString) (w : W)
      (o : Outcome JsString) (tr : Trace) (w' : W) :
  log_and_rethrow label
    (let '(o0, tr0, w0) := generateWithRetry_default operation w in
     match o0 with
     | Resolved response =>
         (Resolved (normalize (text_or (text response) fallback)), tr0, w0)
     | Rejected error => (Rejected error, tr0, w0)
     end) = (o, tr, w') ->
  (1 <= invocations tr <= 4)%Z
  /\ match o with
     | Resolved html =>
         (exists w_last response,
             operation w_last = (Resolved response, w')
             /\ html = normalize (text_or (text response) fallback))
         /\ errors_logged tr = []
     | Rejected error =>
         (exists w_last, operation w_last = (Rejected error, w'))
         /\ errors_logged tr = [(label, error)]
         /\ exists tr0,
             tr = tr0 ++ [LogError label error] /\ errors_logged tr0 = []
     end.
Proof.
  pose proof (retry_loop_invocations 3 operation 3 2000 w) as Hinv.
  pose proof (retry_loop_logs_nothing 3 operation 3 2000 w) as Hlog.
  unfold generateWithRetry_default, generateWithRetry.
  change (Z.to_nat 3) with 3%nat.
  destruct (retry_loop 3 operation 3 2000 w) as [[o0 tr0] w0] eqn:Hrun.
  pose proof (retry_loop_last _ _ _ _ _ Hrun) as [w_last Hlast].
  unfold trace_of in Hinv, Hlog. cbn [fst snd] in Hinv, Hlog.
  destruct o0 as [response|error]; cbn [log_and_rethrow];
    intros H; inversion H; subst; clear H.
  - split; [exact Hinv|]. split; [|exact Hlog].
    exists w_last, response. split; [exact Hlast|reflexivity].
  - split.
    + rewrite invocations_app. cbn [invocations]. lia.
    + split; [exists w_last; exact Hlast|]. split.
      * rewrite errors_logged_app, Hlog. reflexivity.
      * exists tr0. split; [reflexivity | exact Hlog].
Qed.

(** X5.  In both revisions [bringToLife] makes between one and four remote
    calls.  It resolves only if the last of them resolved, with the
    normalized text of that response (or the placeholder), and then no
    console error was written; it rejects only with the failure of the
    last remote call itself, and then exactly one console error was
    written during the whole call, for that failure, as the last
    effect. *)
Theorem bringToLife_result_from_last_call :
  forall (W : Type) (SYSTEM_INSTRUCTION : JsString)
         (generateContent :
            GenerateContentParameters -> Operation W GenerateContentResponse)
         (prompt : JsString) (w : W)
         (o : Outcome JsString) (tr : Trace) (w' : W),
    (forall images : list ImagePart,
        ImageRevision.bringToLife SYSTEM_INSTRUCTION generateContent
                                  prompt images w = (o, tr, w') ->
        (1 <= invocations tr <= 4)%Z
        /\ match o with
           | Resolved html =>
               (exists w_last response,
                   generateContent
                     (ImageRevision.bringToLife_request SYSTEM_INSTRUCTION
                        prompt images) w_last = (Resolved response, w')
                   /\ html = normalize (text_or (text response) placeholder))
               /\ errors_logged tr = []
           | Rejected error =>
               (exists w_last,
                   generateContent
                     (ImageRevision.bringToLife_request SYSTEM_INSTRUCTION
                        prompt images) w_last = (Rejected error, w'))
               /\ errors_logged tr = [(js "Gemini Generation Error:", error)]
               /\ exists tr0,
                   tr = tr0 ++ [LogError (js "Gemini Generation Error:") error]
                   /\ errors_logged tr0 = []
           end)
    /\ (forall assets : list AssetFile,
           AssetRevision.bringToLife SYSTEM_INSTRUCTION generateContent
                                     prompt assets w = (o, tr, w') ->
           (1 <= invocations tr <= 4)%Z
           /\ match o with
              | Resolved html =>
                  (exists w_last response,
                      generateContent
                        (AssetRevision.bringToLife_request SYSTEM_INSTRUCTION
                           prompt assets) w_last = (Resolved response, w')
                      /\ html = normalize (text_or (text response) placeholder))
                  /\ errors_logged tr = []
              | Rejected error =>
                  (exists w_last,
                      generateContent
                        (AssetRevision.bringToLife_request SYSTEM_INSTRUCTION
                           prompt assets) w_last = (Rejected error, w'))
                  /\ errors_logged tr = [(js "Gemini Generation Error:", error)]
                  /\ exists tr0,
                      tr = tr0 ++ [LogError (js "Gemini Generation Error:") error]
                      /\ errors_logged tr0 = []
              end).
Proof.
  intros W SI generateContent prompt w o tr w'. split.
  - intros images H. exact (service_call_result _ _ _ _ H).
  - intros assets H. exact (service_call_result _ _ _ _ H).
Qed.

Lemma bringToLife_result_from_last_call_witness :
  (1 <= invocations
          [Invoke; LogError (js "Gemini Generation Error:") error_500] <= 4)%Z
  /\ (exists w_last : nat,
         replies_with_500
           (ImageRevision.bringToLife_request [] (js "Show me the news") [])
           w_last = (Rejected error_500, 1%nat))
     /\ errors_logged
          [Invoke; LogError (js "Gemini Generation Error:") error_500]
        = [(js "Gemini Generation Error:", error_500)]
     /\ exists tr0,
         [Invoke; LogError (js "Gemini Generation Error:") error_500]
         = tr0 ++ [LogError (js "Gemini Generation Error:") error_500]
         /\ errors_logged tr0 = [].
Proof.
  apply (proj1 (@bringToLife_result_from_last_call nat []
                  replies_with_500 (js "Show me the news") 0%nat
                  (Rejected error_500)
                  [Invoke; LogError (js "Gemini Generation Error:") error_500]
                  1%nat) []).
  vm_compute. reflexivity.
Defined.

(** X6.  The same for [refineCode], in both revisions: one to four remote
    calls; a resolution carries the normalized text of the last response
    (or of [currentHtml]) and writes no console error; a rejection is the
    failure of the last remote call, with exactly one console error
    written during the whole call, for that failure, as the last
    effect. *)
Theorem refineCode_result_from_last_call :
  forall (W : Type) (SYSTEM_INSTRUCTION : JsString)
         (generateContent :
            GenerateContentParameters -> Operation W GenerateContentResponse)
         (currentHtml refinementPrompt : JsString) (w : W)
         (o : Outcome JsString) (tr : Trace) (w' : W),
    (ImageRevision.refineCode SYSTEM_INSTRUCTION generateContent
                              currentHtml refinementPrompt w = (o, tr, w') ->
     (1 <= invocations tr <= 4)%Z
     /\ match o with
        | Resolved html =>
            (exists w_last response,
                generateContent
                  (ImageRevision.refineCode_request SYSTEM_INSTRUCTION
                     currentHtml refinementPrompt) w_last = (Resolved response, w')
                /\ html = normalize (text_or (text response) currentHtml))
            /\ errors_logged tr = []
        | Rejected error =>
            (exists w_last,
                generateContent
                  (ImageRevision.refineCode_request SYSTEM_INSTRUCTION
                     currentHtml refinementPrompt) w_last = (Rejected error, w'))
            /\ errors_logged tr = [(js "Gemini Refine Error:", error)]
            /\ exists tr0,
                tr = tr0 ++ [LogError (js "Gemini Refine Error:") error]
                /\ errors_logged tr0 = []
        end)
    /\ (forall newAssets : list AssetFile,
           AssetRevision.refineCode SYSTEM_INSTRUCTION generateContent
             currentHtml refinementPrompt newAssets w = (o, tr, w') ->
           (1 <= invocations tr <= 4)%Z
           /\ match o with
              | Resolved html =>
                  (exists w_last response,
                      generateContent
                        (AssetRevision.refineCode_request SYSTEM_INSTRUCTION
                           currentHtml refinementPrompt newAssets) w_last = (Resolved response, w')
                      /\ html = normalize (text_or (text response) currentHtml))
                  /\ errors_logged tr = []
              | Rejected error =>
                  (exists w_last,
                      generateContent
                        (AssetRevision.refineCode_request SYSTEM_INSTRUCTION
                           currentHtml refinementPrompt newAssets) w_last = (Rejected error, w'))
                  /\ errors_logged tr = [(js "Gemini Refine Error:", error)]
                  /\ exists tr0,
                      tr = tr0 ++ [LogError (js "Gemini Refine Error:") error]
                      /\ errors_logged tr0 = []
              end).
Proof.
  intros W SI generateContent currentHtml refinementPrompt w o tr w'. split.
  - intros H. exact (service_call_result _ _ _ _ H).
  - intros newAssets H. exact (service_call_result _ _ _ _ H).
Qed.

Lemma refineCode_result_from_last_call_witness :
  (1 <= invocations
          [Invoke; LogError (js "Gemini Refine Error:") error_500] <= 4)%Z
  /\ (exists w_last : nat,
         replies_with_500
           (ImageRevision.refineCode_request [] (js "<p>hi</p>")
              (js "Make it blue"))
           w_last = (Rejected error_500, 1%nat))
     /\ errors_logged [Invoke; LogError (js "Gemini Refine Error:") error_500]
        = [(js "Gemini Refine Error:", error_500)]
     /\ exists tr0,
         [Invoke; LogError (js "Gemini Refine Error:") error_500]
         = tr0 ++ [LogError (js "Gemini Refine Error:") error_500]
         /\ errors_logged tr0 = [].
Proof.
  apply (proj1 (@refineCode_result_from_last_call nat []
                  replies_with_500 (js "<p>hi</p>") (js "Make it blue")
                  0%nat (Rejected error_500)
                  [Invoke; LogError (js "Gemini Refine Error:") error_500]
                  1%nat)).
  vm_compute. reflexivity.
Defined.

(* ================================================================== *)
(** * Further properties of the prompts and the virtual paths *)

(** The block of the [k]-th attachment carries the index [k]. *)
Lemma forEach_append_nth block : forall assets index acc k a,
  nth_error assets k = Some a ->
  exists pre post,
    forEach_append block assets index acc
    = pre ++ block a (index + N.of_nat k)%N ++ post.
Proof.
  induction assets as [|b rest IH]; intros index acc k a Hk.
  - destruct k; discriminate.
  - cbn [forEach_append]. destruct k as [|k].
    + injection Hk as ->.
      exists acc, (forEach_append block rest (index + 1) []).
      rewrite forEach_append_acc, N.add_0_r. symmetry. apply app_assoc.
    + cbn [nth_error] in Hk.
      destruct (IH (index + 1)%N (acc ++ block b index) k a Hk)
        as (pre & post & E).
      exists pre, post. rewrite E. do 3 f_equal. lia.
Qed.

Lemma includes_starts3 (a b c r : JsString) :
  includes (a ++ b ++ c) (a ++ b ++ c ++ r) = true.
Proof.
  replace (a ++ b ++ c ++ r) with ((a ++ b ++ c) ++ r)
    by (rewrite <- !app_assoc; reflexivity).
  apply includes_starts, starts_with_app.
Qed.

(** X7.  Both refinement prompts hold the current document and the
    quoted request as they are, for every list of new assets, the empty
    one included.  Attachments are numbered from 1 in list order: for the
    [k]-th attachment (from 0) the generation prompt holds the lines
    "--- ASSET k+1 ---" and "Filename: <name>", and the refinement prompt
    of the asset revision holds the whole block "--- NEW ASSET k+1 ---"
    with file name, virtual path, MIME type, data and instruction. *)
Theorem prompts_number_attachments_in_order :
  forall (prompt currentHtml refinementPrompt : JsString)
         (assets : list AssetFile),
    includes currentHtml
             (AssetRevision.refine_prompt currentHtml refinementPrompt assets)
    = true
    /\ includes (dq ++ refinementPrompt ++ dq)
                (AssetRevision.refine_prompt currentHtml refinementPrompt assets)
       = true
    /\ includes currentHtml
                (ImageRevision.refine_prompt currentHtml refinementPrompt)
       = true
    /\ includes (dq ++ refinementPrompt ++ dq)
                (ImageRevision.refine_prompt currentHtml refinementPrompt)
       = true
    /\ (forall (k : nat) (a : AssetFile),
           nth_error assets k = Some a ->
           includes
             (nl ++ js "--- ASSET " ++ of_N (N.of_nat k + 1) ++ js " ---" ++ nl
              ++ js "Filename: " ++ name a ++ nl)
             (constructedPrompt prompt assets) = true
           /\ includes (new_asset_block a (N.of_nat k))
                       (AssetRevision.refine_prompt currentHtml
                          refinementPrompt assets)
              = true).
Proof.
  intros prompt currentHtml refinementPrompt assets.
  split; [|split; [|split; [|split]]].
  - unfold AssetRevision.refine_prompt.
    do 4 apply includes_app_r. apply includes_starts, starts_with_app.
  - unfold AssetRevision.refine_prompt.
    do 10 apply includes_app_r.
    apply includes_starts3.
  - unfold ImageRevision.refine_prompt.
    do 4 apply includes_app_r. apply includes_starts, starts_with_app.
  - unfold ImageRevision.refine_prompt.
    do 10 apply includes_app_r.
    apply includes_starts3.
  - intros k a Hk.
    assert (Hne : exists b rest, assets = b :: rest).
    { destruct assets as [|b rest]; [destruct k; discriminate | eauto]. }
    destruct Hne as (b & rest & Eassets).
    split.
    + unfold constructedPrompt. rewrite Eassets at 1.
      cbn [List.length Nat.ltb Nat.leb].
      apply includes_app_l.
      match goal with
      | |- context [forEach_append ?blk ?l ?i ?acc] =>
          destruct (forEach_append_nth blk l i acc k Hk) as (pre & post & E)
      end.
      rewrite E. apply includes_app_r, includes_app_l.
      unfold asset_block. rewrite N.add_0_l.
      rewrite <- !app_assoc.
      repeat (rewrite (app_assoc _ _ (js "Virtual Path: " ++ _))).
      apply includes_app_l, includes_refl.
    + unfold AssetRevision.refine_prompt.
      do 16 apply includes_app_r. apply includes_app_l.
      unfold assetContext. rewrite Eassets at 1.
      cbn [List.length Nat.ltb Nat.leb].
      match goal with
      | |- context [forEach_append ?blk ?l ?i ?acc] =>
          destruct (forEach_append_nth blk l i acc k Hk) as (pre & post & E)
      end.
      rewrite E, N.add_0_l.
      apply includes_app_r, includes_app_l, includes_refl.
Qed.

Lemma prompts_number_attachments_in_order_witness :
  includes
    (nl ++ js "--- ASSET " ++ of_N (N.of_nat 1 + 1) ++ js " ---" ++ nl
     ++ js "Filename: " ++ js "icon 2.svg" ++ nl)
    (constructedPrompt (js "Show my files")
       [mkAsset (js "My Photo.png") (js "image/png") (js "iVBORw0KGgo=");
        mkAsset (js "icon 2.svg") (js "image/svg+xml") (js "PHN2Zz4=")])
  = true.
Proof.
  apply (proj2 (proj2 (proj2 (proj2
           (@prompts_number_attachments_in_order (js "Show my files") [] []
              [mkAsset (js "My Photo.png") (js "image/png") (js "iVBORw0KGgo=");
               mkAsset (js "icon 2.svg") (js "image/svg+xml") (js "PHN2Zz4=")]))))
           1%nat
           (mkAsset (js "icon 2.svg") (js "image/svg+xml") (js "PHN2Zz4="))).
  reflexivity.
Defined.

Lemma clean_name_agree : forall n1 n2 : JsString,
  Forall2 (fun c d => c = d \/ (path_unit_ok c = false /\ path_unit_ok d = false))
          n1 n2 ->
  clean_name n1 = clean_name n2.
Proof.
  intros n1 n2 H. induction H as [|c d n1 n2 Hcd _ IH]; [reflexivity|].
  cbn [clean_name List.map]. unfold clean_name in IH. rewrite IH. f_equal.
  destruct Hcd as [->|[Hc Hd]]; [reflexivity|]. rewrite Hc, Hd. reflexivity.
Qed.

Lemma clean_name_idempotent (s : JsString) :
  clean_name (clean_name s) = clean_name s.
Proof.
  unfold clean_name. induction s as [|c s IH]; [reflexivity|].
  cbn [List.map]. rewrite IH. f_equal.
  destruct (path_unit_ok c) eqn:Hc; [rewrite Hc|]; reflexivity.
Qed.

(** X8.  Cleaning a name twice changes nothing more, and two attachments
    whose names differ only at positions where both hold a disallowed code
    unit get the same virtual path: virtual paths do not tell such
    attachments apart. *)
Theorem virtualPath_collisions :
  forall a1 a2 : AssetFile,
    Forall2 (fun c d =>
               c = d \/ (path_unit_ok c = false /\ path_unit_ok d = false))
            (name a1) (name a2) ->
    virtualPath a1 = virtualPath a2
    /\ clean_name (clean_name (name a1)) = clean_name (name a1).
Proof.
  intros a1 a2 H. split.
  - unfold virtualPath. f_equal. apply clean_name_agree, H.
  - apply clean_name_idempotent.
Qed.

Lemma virtualPath_collisions_witness :
  virtualPath (mkAsset (js "a b.png") (js "image/png") (js "AAAA"))
  = virtualPath (mkAsset (js "a(b.png") (js "image/png") (js "BBBB")).
Proof.
  apply (@virtualPath_collisions
           (mkAsset (js "a b.png") (js "image/png") (js "AAAA"))
           (mkAsset (js "a(b.png") (js "image/png") (js "BBBB"))).
  change (Forall2
            (fun c d =>
               c = d \/ (path_unit_ok c = false /\ path_unit_ok d = false))
            [97; 32; 98; 46; 112; 110; 103]%N
            [97; 40; 98; 46; 112; 110; 103]%N).
  repeat constructor; (left; reflexivity) || (right; split; reflexivity).
Defined.

Lemma path_unit_ok_range c : path_unit_ok c = true -> (45 <= c <= 122)%N.
Proof.
  unfold path_unit_ok. intros H.
  destruct (N.leb_spec 45 c); [|exfalso].
  - destruct (N.leb_spec c 122); [lia|exfalso].
    rewrite (proj2 (N.leb_gt c 90)),
            (proj2 (N.leb_gt c 57)), (proj2 (N.eqb_neq c 46)),
            (proj2 (N.eqb_neq c 45)) in H by lia.
    rewrite !andb_false_r in H. discriminate.
  - rewrite (proj2 (N.leb_gt 97 c)), (proj2 (N.leb_gt 65 c)),
            (proj2 (N.leb_gt 48 c)), (proj2 (N.eqb_neq c 46)),
            (proj2 (N.eqb_neq c 45)) in H by lia.
    discriminate.
Qed.

Lemma path_unit_ok_not_space c : path_unit_ok c = true -> is_space c = false.
Proof.
  intros H. apply path_unit_ok_range in H. unfold is_space.
  rewrite (proj2 (N.leb_gt c 13)), (proj2 (N.eqb_neq c 32)),
          (proj2 (N.eqb_neq c 160)), (proj2 (N.eqb_neq c 5760)),
          (proj2 (N.leb_gt 8192 c)), (proj2 (N.eqb_neq c 8232)),
          (proj2 (N.eqb_neq c 8233)), (proj2 (N.eqb_neq c 8239)),
          (proj2 (N.eqb_neq c 8287)), (proj2 (N.eqb_neq c 12288)),
          (proj2 (N.eqb_neq c 65279)) by lia.
  rewrite andb_false_r. reflexivity.
Qed.

Lemma replace_space_runs_no_space : forall s b,
  Forall (fun c => is_space c = false) s ->
  InputArea.replace_space_runs b s = s.
Proof.
  induction s as [|c s IH]; intros b H; [reflexivity|].
  inversion H as [|? ? Hc Hs]; subst.
  cbn [InputArea.replace_space_runs]. rewrite Hc. f_equal. apply IH, Hs.
Qed.

Lemma replace_space_runs_keeps c : forall s b,
  In c s -> is_space c = false -> In c (InputArea.replace_space_runs b s).
Proof.
  induction s as [|d s IH]; intros b Hin Hc; [contradiction|].
  cbn [InputArea.replace_space_runs].
  destruct Hin as [->|Hin].
  - rewrite Hc. left. reflexivity.
  - destruct (is_space d); [destruct b|].
    + apply IH; assumption.
    + right. apply IH; assumption.
    + right. apply IH; assumption.
Qed.

(** X9.  The path shown next to an uploaded file (white-space runs
    replaced) and the path written into the prompt (every code unit outside
    a-z, A-Z, 0-9, dot and hyphen replaced) are the same for names made of
    allowed units and underscores; they differ as soon as the name holds
    a disallowed unit that is neither white space nor an underscore. *)
Theorem displayed_path_versus_prompt_path :
  forall a : AssetFile,
    (Forall (fun c => path_unit_ok c = true \/ c = 95%N) (name a) ->
     InputArea.displayed_path (name a) = virtualPath a)
    /\ (forall c : N,
           In c (name a) -> path_unit_ok c = false ->
           is_space c = false -> c <> 95%N ->
           InputArea.displayed_path (name a) <> virtualPath a).
Proof.
  intros a. split.
  - intros H. unfold InputArea.displayed_path, virtualPath. f_equal.
    rewrite replace_space_runs_no_space.
    + unfold clean_name. symmetry. rewrite <- (map_id (name a)) at 2.
      apply map_ext_in. intros c Hc.
      rewrite Forall_forall in H. destruct (H c Hc) as [Hok| ->].
      * rewrite Hok. reflexivity.
      * reflexivity.
    + eapply Forall_impl; [|exact H]. intros c [Hok| ->].
      * apply path_unit_ok_not_space, Hok.
      * reflexivity.
  - intros c Hin Hbad Hsp H95 E.
    unfold InputArea.displayed_path, virtualPath in E.
    apply app_inv_head in E.
    pose proof (replace_space_runs_keeps c (name a) false Hin Hsp) as Hkept.
    rewrite E in Hkept.
    pose proof (clean_name_units (name a)) as Hunits.
    rewrite Forall_forall in Hunits.
    destruct (Hunits c Hkept) as [Hok|Heq]; congruence.
Qed.

Lemma displayed_path_versus_prompt_path_witness :
  InputArea.displayed_path (js "photo(1).png")
  <> virtualPath (mkAsset (js "photo(1).png") (js "image/png") (js "AAAA")).
Proof.
  apply (proj2 (displayed_path_versus_prompt_path
                  (mkAsset (js "photo(1).png") (js "image/png") (js "AAAA")))
               40%N).
  - change (In 40%N [112; 104; 111; 116; 111; 40; 49; 41; 46; 112; 110; 103]%N).
    do 5 right. left. reflexivity.
  - reflexivity.
  - reflexivity.
  - discriminate.
Defined.

(* ================================================================== *)
(** * The handlers of App.tsx *)

Lemma split_on_no_sep sep : forall s, ~ In sep s -> split_on sep s = [s].
Proof.
  induction s as [|c s IH]; intros H; [reflexivity|].
  cbn [split_on]. destruct (N.eqb_spec c sep) as [->|Hne].
  - exfalso. apply H. left. reflexivity.
  - rewrite IH; [reflexivity|]. intros Hin. apply H. right. exact Hin.
Qed.

Lemma split_on_first_sep sep : forall a b,
  ~ In sep a -> split_on sep (a ++ sep :: b) = a :: split_on sep b.
Proof.
  induction a as [|c a IH]; intros b H.
  - cbn [app split_on]. rewrite N.eqb_refl. reflexivity.
  - cbn [app split_on]. destruct (N.eqb_spec c sep) as [->|Hne].
    + exfalso. apply H. left. reflexivity.
    + rewrite IH; [reflexivity|]. intros Hin. apply H. right. exact Hin.
Qed.

(** X10.  [fileToBase64] recovers the base64 payload of a data URL whose
    media type and payload hold no comma, so the [originalImage] URL that
    [handleGenerate] rebuilds from the two fields is the URL that was read.
    A reader result without any comma (such as "data:") gives no data at
    all. *)
Theorem fileToBase64_round_trip :
  forall (file : App.File) (b64 url : JsString),
    (~ In 44%N (toLowerCase (App.file_type file)) -> ~ In 44%N b64 ->
     App.fileToBase64_onload file
       (Some (App.data_url (toLowerCase (App.file_type file)) b64))
     = Resolved (Some b64, toLowerCase (App.file_type file)))
    /\ (~ In 44%N url ->
        App.fileToBase64_onload file (Some url)
        = Resolved (None, toLowerCase (App.file_type file))).
Proof.
  intros file b64 url. split.
  - intros Hm Hb. unfold App.fileToBase64_onload, App.data_url.
    change (js ";base64,") with (js ";base64" ++ [44%N]).
    replace (js "data:" ++ toLowerCase (App.file_type file)
             ++ (js ";base64" ++ [44%N]) ++ b64)
      with ((js "data:" ++ toLowerCase (App.file_type file) ++ js ";base64")
            ++ 44%N :: b64)
      by (rewrite <- !app_assoc; reflexivity).
    rewrite split_on_first_sep;
      [rewrite split_on_no_sep by exact Hb; reflexivity|].
    intros Hin. apply in_app_or in Hin. destruct Hin as [Hin|Hin].
    + cbn in Hin. repeat (destruct Hin as [Hin|Hin]; [discriminate|]).
      exact Hin.
    + apply in_app_or in Hin. destruct Hin as [Hin|Hin]; [exact (Hm Hin)|].
      cbn in Hin. repeat (destruct Hin as [Hin|Hin]; [discriminate|]).
      exact Hin.
  - intros Hu. unfold App.fileToBase64_onload.
    rewrite split_on_no_sep by exact Hu. reflexivity.
Qed.

Lemma fileToBase64_round_trip_witness :
  App.fileToBase64_onload (App.mkFile (js "My Photo.png") (js "image/PNG"))
    (Some (js "data:image/png;base64,iVBORw0KGgo="))
  = Resolved (Some (js "iVBORw0KGgo="), js "image/png").
Proof.
  apply (proj1 (fileToBase64_round_trip
                  (App.mkFile (js "My Photo.png") (js "image/PNG"))
                  (js "iVBORw0KGgo=") [])).
  - vm_compute. intuition discriminate.
  - vm_compute. intuition discriminate.
Defined.

Section HandlerFacts.

Variable W : Type.
Variable SYSTEM_INSTRUCTION : JsString.
Variable generateContent :
  GenerateContentParameters -> Operation W GenerateContentResponse.
Variable fileToBase64 : App.File -> Operation W ImagePart.
Variable randomUUID : W -> JsString * W.
Variable newDate : W -> Z.

Local Abbreviation handleGenerate :=
  (App.handleGenerate SYSTEM_INSTRUCTION generateContent fileToBase64
                      randomUUID newDate).
Local Abbreviation handleRefine :=
  (App.handleRefine SYSTEM_INSTRUCTION generateContent randomUUID newDate).

Lemma bringToLife_invocations prompt images w :
  (invocations
     (trace_of (ImageRevision.bringToLife SYSTEM_INSTRUCTION generateContent
                                          prompt images w)) <= 4)%Z.
Proof.
  destruct (ImageRevision.bringToLife SYSTEM_INSTRUCTION generateContent
                                      prompt images w) as [[o tr] w'] eqn:E.
  apply service_call_result in E. cbn. lia.
Qed.

Lemma refineCode_invocations currentHtml refinementPrompt w :
  (invocations
     (trace_of (ImageRevision.refineCode SYSTEM_INSTRUCTION generateContent
                                         currentHtml refinementPrompt w))
   <= 4)%Z.
Proof.
  destruct (ImageRevision.refineCode SYSTEM_INSTRUCTION generateContent
              currentHtml refinementPrompt w) as [[o tr] w'] eqn:E.
  apply service_call_result in E. cbn. lia.
Qed.

Lemma creation_name_bounds (promptText : JsString) (file : option App.File) :
  (1 <= List.length
          (str_or (firstn 30 promptText)
                  (match file with
                   | Some _ => js "Image Analysis"
                   | None => js "Voice Search Result"
                   end)) <= 30)%nat.
Proof.
  pose proof (length_firstn 30 promptText) as L.
  remember (firstn 30 promptText) as d eqn:Hd. clear Hd.
  destruct d as [|c d]; cbn [str_or].
  - destruct file.
    + assert (E : List.length (js "Image Analysis") = 14%nat) by reflexivity.
      lia.
    + assert (E : List.length (js "Voice Search Result") = 19%nat)
        by reflexivity.
      lia.
  - cbn [List.length] in *. lia.
Qed.

(** X11.  [handleGenerate] always leaves [isGenerating] false and makes at
    most four remote calls.  It ends in one of three ways: nothing shown
    and nothing stored (the service returned an empty text); one alert, for
    the failure caught, and nothing stored; or no alert and one creation
    put at the head of the history and made active, with a non-empty
    document, a name of 1 to 30 code units, and an original image exactly
    when a file was given.  In the first two cases no creation is active
    afterwards, whatever was active before. *)
Theorem handleGenerate_outcomes :
  forall (promptText : JsString) (file : option App.File) (w : W)
         (st : App.AppState),
    let run := handleGenerate promptText file w in
    let final := App.apply_updates st (App.updates run) in
    App.isGenerating final = false
    /\ (invocations (App.remote run) <= 4)%Z
    /\ ((App.alerts run = [] /\ App.history final = App.history st
         /\ App.activeCreation final = None)
        \/ (exists error,
               App.alerts run = [handleApiError error]
               /\ App.history final = App.history st
               /\ App.activeCreation final = None)
        \/ (exists c,
               App.alerts run = []
               /\ App.history final = c :: App.history st
               /\ App.activeCreation final = Some c
               /\ App.creation_html c <> []
               /\ (1 <= List.length (App.creation_name c) <= 30)%nat
               /\ (App.creation_originalImage c = None <-> file = None))).
Proof.
  intros promptText file w st. unfold App.handleGenerate.
  destruct file as [f|].
  - destruct (fileToBase64 f w) as [[img|error] w1].
    + pose proof (bringToLife_invocations promptText [img] w1) as Hinv.
      destruct (ImageRevision.bringToLife SYSTEM_INSTRUCTION generateContent
                  promptText [img] w1) as [[[html|error] tr] w2].
      * destruct html as [|c html].
        -- cbn. repeat split; [exact Hinv|]. left. repeat split.
        -- destruct (randomUUID w2) as [uuid w3]. cbn -[js str_or firstn].
           repeat split; [exact Hinv|]. right. right.
           eexists. repeat split; try discriminate.
           ++ apply (creation_name_bounds promptText (Some f)).
           ++ apply (creation_name_bounds promptText (Some f)).
      * cbn. repeat split; [exact Hinv|]. right. left.
        exists error. repeat split.
    + cbn. repeat split; [lia|]. right. left. exists error. repeat split.
  - pose proof (bringToLife_invocations promptText [] w) as Hinv.
    destruct (ImageRevision.bringToLife SYSTEM_INSTRUCTION generateContent
                promptText [] w) as [[[html|error] tr] w2].
    + destruct html as [|c html].
      * cbn. repeat split; [exact Hinv|]. left. repeat split.
      * destruct (randomUUID w2) as [uuid w3]. cbn -[js str_or firstn].
        repeat split; [exact Hinv|]. right. right.
        eexists. repeat split; try discriminate.
        -- apply (creation_name_bounds promptText None).
        -- apply (creation_name_bounds promptText None).
    + cbn. repeat split; [exact Hinv|]. right. left.
      exists error. repeat split.
Qed.

Lemma generateWithRetry_default_first_success
      (operation : Operation W GenerateContentResponse) (w w1 : W)
      (response : GenerateContentResponse) :
  operation w = (Resolved response, w1) ->
  generateWithRetry_default operation w = (Resolved response, [Invoke], w1).
Proof.
  intros H. unfold generateWithRetry_default.
  rewrite generateWithRetry_unfold, H. reflexivity.
Qed.

(** X12.  When the remote call of a generation request succeeds, at once
    or after retries, with a response that has no text, [handleGenerate]
    shows no alert and stores
    a creation whose document is the placeholder comment: the empty answer
    enters the history like a real result.  This holds without a file and
    with a file that [fileToBase64] converts; the creation carries the
    file's data URL in the second case and no image in the first. *)
Theorem handleGenerate_stores_placeholder :
  forall (promptText : JsString) (file : option App.File)
         (imageParts : list ImagePart) (w w1 w2 : W) (tr : Trace)
         (response : GenerateContentResponse) (st : App.AppState),
    match file with
    | None => imageParts = [] /\ w1 = w
    | Some f =>
        exists img, fileToBase64 f w = (Resolved img, w1)
                    /\ imageParts = [img]
    end ->
    generateWithRetry_default
      (generateContent
         (ImageRevision.bringToLife_request SYSTEM_INSTRUCTION promptText
            imageParts))
      w1 = (Resolved response, tr, w2) ->
    text response = None \/ text response = Some [] ->
    let run := handleGenerate promptText file w in
    let final := App.apply_updates st (App.updates run) in
    App.alerts run = []
    /\ exists c,
        App.history final = c :: App.history st
        /\ App.activeCreation final = Some c
        /\ App.creation_html c = placeholder
        /\ App.creation_originalImage c
           = match imageParts with
             | [] => None
             | img :: _ =>
                 Some (App.data_url (inline_mimeType img) (inline_data img))
             end.
Proof.
  intros promptText file imageParts w w1 w2 tr response st Hfile Hcall Htext.
  unfold App.handleGenerate.
  destruct file as [f|].
  - destruct Hfile as (img & Hread & ->). rewrite Hread.
    unfold ImageRevision.bringToLife.
    rewrite Hcall.
    rewrite (text_or_absent _ _ Htext), normalize_placeholder.
    cbn [log_and_rethrow].
    change placeholder with (60%N :: List.tl placeholder) at 1.
    cbv iota beta.
    destruct (randomUUID w2) as [uuid w3].
    cbn -[js str_or firstn placeholder App.data_url].
    split; [reflexivity|]. eexists. repeat split.
  - destruct Hfile as [-> ->].
    unfold ImageRevision.bringToLife.
    rewrite Hcall.
    rewrite (text_or_absent _ _ Htext), normalize_placeholder.
    cbn [log_and_rethrow].
    change placeholder with (60%N :: List.tl placeholder) at 1.
    cbv iota beta.
    destruct (randomUUID w2) as [uuid w3].
    cbn -[js str_or firstn placeholder].
    split; [reflexivity|]. eexists. repeat split.
Qed.

(** X13.  [handleRefine] does nothing at all without an active creation:
    no state change, no remote call, no alert.  With one, it leaves
    [isGenerating] false after at most four remote calls and ends in one of
    two ways: one alert, with the history and the active creation as they
    were; or no alert and a new creation at the head of the history, made
    active, named after the old one with " (Refined)" appended and keeping
    its original image. *)
Theorem handleRefine_outcomes :
  forall (active : option App.Creation) (refinementPrompt : JsString) (w : W)
         (st : App.AppState),
    let run := handleRefine active refinementPrompt w in
    let final := App.apply_updates st (App.updates run) in
    match active with
    | None =>
        final = st /\ App.alerts run = [] /\ App.remote run = []
        /\ App.world run = w
    | Some a =>
        App.isGenerating final = false
        /\ (invocations (App.remote run) <= 4)%Z
        /\ ((exists error,
                App.alerts run = [handleApiError error]
                /\ App.history final = App.history st
                /\ App.activeCreation final = App.activeCreation st)
            \/ (exists c,
                   App.alerts run = []
                   /\ App.history final = c :: App.history st
                   /\ App.activeCreation final = Some c
                   /\ App.creation_name c
                      = App.creation_name a ++ js " (Refined)"
                   /\ App.creation_originalImage c
                      = App.creation_originalImage a))
    end.
Proof.
  intros active refinementPrompt w st. unfold App.handleRefine.
  destruct active as [a|]; [|repeat split].
  pose proof (refineCode_invocations (App.creation_html a) refinementPrompt w)
    as Hinv.
  destruct (ImageRevision.refineCode SYSTEM_INSTRUCTION generateContent
              (App.creation_html a) refinementPrompt w)
    as [[[html|error] tr] w1].
  - destruct (randomUUID w1) as [uuid w2]. cbn -[js].
    repeat split; [exact Hinv|]. right. eexists. repeat split.
  - cbn. repeat split; [exact Hinv|]. left. exists error. repeat split.
Qed.

(** X14.  When the service answers a refinement request at once with a
    response that has no text, [handleRefine] still adds a creation named
    "... (Refined)"; its document is the normalized old document, which is
    the old document itself when that neither starts nor ends with a
    fence. *)
Theorem handleRefine_empty_response_keeps_document :
  forall (a : App.Creation) (refinementPrompt : JsString) (w w1 : W)
         (response : GenerateContentResponse) (st : App.AppState),
    generateContent
      (ImageRevision.refineCode_request SYSTEM_INSTRUCTION
         (App.creation_html a) refinementPrompt)
      w = (Resolved response, w1) ->
    text response = None \/ text response = Some [] ->
    let run := handleRefine (Some a) refinementPrompt w in
    let final := App.apply_updates st (App.updates run) in
    App.alerts run = []
    /\ exists c,
        App.history final = c :: App.history st
        /\ App.creation_name c = App.creation_name a ++ js " (Refined)"
        /\ App.creation_html c = normalize (App.creation_html a)
        /\ (starts_with fence (App.creation_html a) = false ->
            ends_with fence (App.creation_html a) = false ->
            App.creation_html c = App.creation_html a).
Proof.
  intros a refinementPrompt w w1 response st Hcall Htext.
  unfold App.handleRefine, ImageRevision.refineCode.
  rewrite (generateWithRetry_default_first_success _ _ Hcall).
  rewrite (text_or_absent _ _ Htext).
  cbn [log_and_rethrow].
  destruct (randomUUID w1) as [uuid w2].
  cbn -[js normalize].
  split; [reflexivity|]. eexists. repeat split.
  apply normalize_unfenced.
Qed.

End HandlerFacts.

Lemma handleGenerate_stores_placeholder_witness :
  let run := App.handleGenerate [] replies_without_text reader_succeeds
               counting_uuid step_clock (js "What is this?")
               (Some my_photo) 0%nat in
  let final := App.apply_updates empty_state (App.updates run) in
  App.alerts run = []
  /\ exists c,
      App.history final = c :: App.history empty_state
      /\ App.activeCreation final = Some c
      /\ App.creation_html c = placeholder
      /\ App.creation_originalImage c
         = Some (App.data_url (js "image/png") (js "iVBORw0KGgo=")).
Proof.
  apply (@handleGenerate_stores_placeholder nat [] replies_without_text
           reader_succeeds counting_uuid step_clock (js "What is this?")
           (Some my_photo)
           [{| inline_data := js "iVBORw0KGgo=";
               inline_mimeType := js "image/png" |}]
           0%nat 1%nat 2%nat [Invoke] {| text := None |} empty_state).
  - eexists. split; reflexivity.
  - reflexivity.
  - left. reflexivity.
Defined.

Lemma handleRefine_empty_response_keeps_document_witness :
  let run := App.handleRefine [] replies_with_empty_text counting_uuid
               step_clock (Some my_page) (js "Make it blue") 0%nat in
  let final := App.apply_updates empty_state (App.updates run) in
  App.alerts run = []
  /\ exists c,
      App.history final = c :: App.history empty_state
      /\ App.creation_name c = App.creation_name my_page ++ js " (Refined)"
      /\ App.creation_html c = normalize (App.creation_html my_page)
      /\ (starts_with fence (App.creation_html my_page) = false ->
          ends_with fence (App.creation_html my_page) = false ->
          App.creation_html c = App.creation_html my_page).
Proof.
  apply (@handleRefine_empty_response_keeps_document nat []
           replies_with_empty_text counting_uuid step_clock my_page
           (js "Make it blue") 0%nat 1%nat {| text := Some [] |} empty_state).
  - reflexivity.
  - right. reflexivity.
Defined.

(* ================================================================== *)
(** * LivePreview.tsx and InputArea.tsx *)

Lemma file_stem_unit (c : N) :
  let d := lower_unit (if LivePreview.alnum_unit c then c else 95%N) in
  (97 <= d <= 122 \/ 48 <= d <= 57 \/ d = 95)%N.
Proof.
  unfold LivePreview.alnum_unit, lower_unit.
  destruct (N.leb_spec 97 c), (N.leb_spec c 122), (N.leb_spec 65 c),
           (N.leb_spec c 90), (N.leb_spec 48 c), (N.leb_spec c 57);
    cbn [andb orb];
    repeat match goal with
           | |- context [N.leb ?a ?b] => destruct (N.leb_spec a b)
           end; cbn [andb orb]; cbv zeta; lia.
Qed.

Lemma lower_unit_fixed (d : N) :
  (97 <= d <= 122 \/ 48 <= d <= 57 \/ d = 95)%N ->
  lower_unit (if LivePreview.alnum_unit d then d else 95%N) = d.
Proof.
  intros H. unfold LivePreview.alnum_unit, lower_unit.
  destruct (N.leb_spec 97 d), (N.leb_spec d 122), (N.leb_spec 65 d),
           (N.leb_spec d 90), (N.leb_spec 48 d), (N.leb_spec d 57);
    cbn [andb orb];
    repeat match goal with
           | |- context [N.leb ?a ?b] => destruct (N.leb_spec a b)
           end; cbn [andb orb]; lia.
Qed.

(** X15.  The base of a download file name has as many code units as the
    creation's name, all of them lower-case letters, digits or underscores,
    and sanitizing it again changes nothing; the archive is named
    base ".zip" and the Blogger theme base "-blogger-theme.xml". *)
Theorem download_names_are_safe :
  forall name : JsString,
    Forall (fun d => (97 <= d <= 122 \/ 48 <= d <= 57 \/ d = 95)%N)
           (LivePreview.file_stem name)
    /\ List.length (LivePreview.file_stem name) = List.length name
    /\ LivePreview.file_stem (LivePreview.file_stem name)
       = LivePreview.file_stem name
    /\ ends_with (js ".zip") (LivePreview.zip_download_name name) = true
    /\ ends_with (js "-blogger-theme.xml")
                 (LivePreview.blogger_download_name name) = true.
Proof.
  intros name.
  assert (Hunits : Forall (fun d => (97 <= d <= 122 \/ 48 <= d <= 57
                                     \/ d = 95)%N)
                          (LivePreview.file_stem name)).
  { unfold LivePreview.file_stem, toLowerCase. rewrite map_map.
    apply Forall_map, Forall_forall. intros c _. apply file_stem_unit. }
  split; [exact Hunits|].
  split; [unfold LivePreview.file_stem, toLowerCase; rewrite !length_map;
          reflexivity|].
  split; [|split; apply ends_with_app].
  revert Hunits. generalize (LivePreview.file_stem name). intros s Hs.
  unfold LivePreview.file_stem, toLowerCase. rewrite map_map.
  rewrite <- (map_id s) at 2. apply map_ext_in. intros d Hd.
  rewrite Forall_forall in Hs. apply lower_unit_fixed, Hs, Hd.
Qed.

Lemma loadingStep_closed_form (ticks : nat) :
  LivePreview.loadingStep ticks = Z.min (Z.of_nat ticks) 3.
Proof.
  induction ticks as [|n IH]; [reflexivity|].
  change (LivePreview.loadingStep (S n))
    with (LivePreview.loading_tick (LivePreview.loadingStep n)).
  rewrite IH. unfold LivePreview.loading_tick.
  destruct (Z.ltb_spec (Z.min (Z.of_nat n) 3) 3); lia.
Qed.

(** X16.  The loading indicator advances one step per tick and stops at
    step 3: after [ticks] ticks it shows step [min ticks 3].  So the last
    row, "Compiling preview", is never marked completed, and is the active
    one from the third tick on. *)
Theorem loading_indicator_stops_at_last_step :
  forall ticks : nat,
    LivePreview.loadingStep ticks = Z.min (Z.of_nat ticks) 3
    /\ LivePreview.step_completed 3 ticks = false
    /\ (LivePreview.step_active 3 ticks = true <-> (3 <= ticks)%nat).
Proof.
  intros ticks.
  unfold LivePreview.step_completed, LivePreview.step_active.
  rewrite loadingStep_closed_form.
  split; [reflexivity|]. split.
  - apply Z.ltb_ge. lia.
  - rewrite Z.eqb_eq. lia.
Qed.

Lemma after_first_gt_app : forall attrs rest,
  ~ In 62%N attrs ->
  LivePreview.after_first_gt (attrs ++ 62%N :: rest) = Some rest.
Proof.
  induction attrs as [|c attrs IH]; intros rest H; [reflexivity|].
  cbn [app LivePreview.after_first_gt].
  destruct (N.eqb_spec c 62) as [->|Hne].
  - exfalso. apply H. left. reflexivity.
  - apply IH. intros Hin. apply H. right. exact Hin.
Qed.

(** X17.  Stripping the body tags undoes wrapping: for any content and any
    attribute text without [>], the serialized element
    [<body attrs>content</body>] is reduced to exactly the content.  A text
    that neither starts with [<body] nor ends with [</body>] is left as it
    is. *)
Theorem strip_body_tags_round_trip :
  forall attrs content other : JsString,
    (~ In 62%N attrs ->
     LivePreview.strip_body_tags
       (js "<body" ++ attrs ++ js ">" ++ content ++ js "</body>") = content)
    /\ (starts_with (js "<body") other = false ->
        ends_with (js "</body>") other = false ->
        LivePreview.strip_body_tags other = other).
Proof.
  intros attrs content other. split.
  - intros H. unfold LivePreview.strip_body_tags, LivePreview.strip_body_open.
    rewrite starts_with_app.
    change 5%nat with (List.length (js "<body")). rewrite skipn_prefix.
    change (js ">" ++ content ++ js "</body>")
      with (62%N :: content ++ js "</body>").
    rewrite after_first_gt_app by exact H. apply replace_trailing_app.
  - intros Hs He.
    unfold LivePreview.strip_body_tags, LivePreview.strip_body_open,
      replace_trailing.
    rewrite Hs, He. reflexivity.
Qed.

Lemma strip_body_tags_round_trip_witness :
  LivePreview.strip_body_tags
    (js "<body" ++ js " class='v2'" ++ js ">" ++ js "<p>a > b</p>"
     ++ js "</body>") = js "<p>a > b</p>".
Proof.
  apply (proj1 (strip_body_tags_round_trip (js " class='v2'")
                  (js "<p>a > b</p>") [])).
  vm_compute. intuition discriminate.
Defined.

Lemma filter_index_past (A : Type) : forall (m : list A) (i j : nat),
  (j < i)%nat ->
  InputArea.filter_index (fun n => negb (Nat.eqb n j)) i m = m.
Proof.
  induction m as [|u m IHm]; intros i j Hij; [reflexivity|].
  cbn [InputArea.filter_index].
  destruct (Nat.eqb_spec i j) as [E|_]; [lia|].
  cbn [negb]. f_equal. apply IHm. lia.
Qed.

Lemma filter_index_remove (A : Type) : forall (l : list A) (start k : nat),
  InputArea.filter_index (fun i => negb (Nat.eqb i (start + k))) start l
  = firstn k l ++ skipn (S k) l.
Proof.
  induction l as [|x l IH]; intros start k.
  - destruct k; reflexivity.
  - cbn [InputArea.filter_index]. destruct k as [|k].
    + rewrite Nat.add_0_r, Nat.eqb_refl. cbn [negb firstn skipn app].
      apply filter_index_past. lia.
    + destruct (Nat.eqb_spec start (start + S k)) as [E|_]; [lia|].
      cbn [negb firstn skipn app]. f_equal.
      replace (start + S k)%nat with (S start + k)%nat by lia.
      apply IH.
Qed.

(** X18.  [removeAsset] drops exactly the file at the given position and
    keeps the others in order; a position past the end changes nothing. *)
Theorem removeAsset_drops_one_position :
  forall (A : Type) (index : nat) (prev : list A),
    InputArea.removeAsset index prev
    = firstn index prev ++ skipn (S index) prev
    /\ ((index < List.length prev)%nat ->
        S (List.length (InputArea.removeAsset index prev))
        = List.length prev)
    /\ ((List.length prev <= index)%nat ->
        InputArea.removeAsset index prev = prev).
Proof.
  intros A index prev.
  assert (E : InputArea.removeAsset index prev
              = firstn index prev ++ skipn (S index) prev).
  { unfold InputArea.removeAsset.
    exact (filter_index_remove prev 0 index). }
  split; [exact E|]. rewrite E. split.
  - intros H. rewrite length_app, length_firstn, length_skipn. lia.
  - intros H. rewrite firstn_all2 by lia. rewrite skipn_all2 by lia.
    apply app_nil_r.
Qed.

Lemma removeAsset_drops_one_position_witness :
  S (List.length (InputArea.removeAsset 1 [js "a.png"; js "b.png"; js "c.png"]))
  = List.length [js "a.png"; js "b.png"; js "c.png"].
Proof.
  apply (proj1 (proj2 (removeAsset_drops_one_position 1
                         [js "a.png"; js "b.png"; js "c.png"]))).
  cbn. lia.
Defined.

(* ================================================================== *)
(** * Trimming and searching *)

Lemma skip_spaces_head : forall s c r,
  skip_spaces s = c :: r -> is_space c = false.
Proof.
  induction s as [|d s IH]; intros c r H; [discriminate|].
  cbn [skip_spaces] in H. destruct (is_space d) eqn:Hd.
  - exact (IH _ _ H).
  - injection H as -> _. exact Hd.
Qed.

Lemma skip_spaces_decomp : forall s,
  exists pre, s = pre ++ skip_spaces s
              /\ Forall (fun c => is_space c = true) pre.
Proof.
  induction s as [|d s (pre & E & Hpre)]; [exists []; split; [reflexivity|constructor]|].
  cbn [skip_spaces]. destruct (is_space d) eqn:Hd.
  - exists (d :: pre). split; [cbn; f_equal; exact E | constructor; assumption].
  - exists []. split; [reflexivity | constructor].
Qed.

Lemma skip_spaces_nil_iff s :
  skip_spaces s = [] <-> Forall (fun c => is_space c = true) s.
Proof.
  split.
  - intros H. destruct (skip_spaces_decomp s) as (pre & E & Hpre).
    rewrite H, app_nil_r in E. subst pre. exact Hpre.
  - induction 1 as [|c s Hc _ IH]; [reflexivity|].
    cbn [skip_spaces]. rewrite Hc. exact IH.
Qed.

Lemma trim_nil_iff s :
  trim s = [] <-> Forall (fun c => is_space c = true) s.
Proof.
  unfold trim. split.
  - intros H. apply (f_equal (@rev N)) in H.
    rewrite rev_involutive in H. cbn [rev] in H.
    apply skip_spaces_nil_iff in H.
    apply skip_spaces_nil_iff.
    destruct (skip_spaces s) as [|c t] eqn:Ht; [reflexivity|].
    apply skip_spaces_head in Ht.
    rewrite Forall_forall in H.
    rewrite (H c) in Ht; [discriminate|].
    apply in_rev. rewrite rev_involutive. left. reflexivity.
  - intros H. apply skip_spaces_nil_iff in H. rewrite H. reflexivity.
Qed.

Lemma trim_head s c r : trim s = c :: r -> is_space c = false.
Proof.
  unfold trim. intros H.
  destruct (skip_spaces_decomp (rev (skip_spaces s))) as (pre & E & _).
  apply (f_equal (@rev N)) in E.
  rewrite rev_involutive, rev_app_distr, H in E.
  exact (skip_spaces_head s E).
Qed.

Lemma trim_last s front c : trim s = front ++ [c] -> is_space c = false.
Proof.
  unfold trim. intros H.
  apply (f_equal (@rev N)) in H.
  rewrite rev_involutive, rev_app_distr in H.
  exact (skip_spaces_head _ H).
Qed.

Lemma find_first_spec needle : forall s before rest,
  find_first needle s = Some (before, rest) ->
  s = before ++ needle ++ rest.
Proof.
  induction s as [|c s IH]; intros before rest H; cbn [find_first] in H.
  - destruct (starts_with needle []) eqn:Hs; [|discriminate].
    injection H as <- <-. exact (starts_with_inv needle [] Hs).
  - destruct (starts_with needle (c :: s)) eqn:Hs.
    + injection H as <- <-. exact (starts_with_inv needle (c :: s) Hs).
    + destruct (find_first needle s) as [[b r]|] eqn:Hf; [|discriminate].
      injection H as <- <-. cbn [app]. f_equal. exact (IH _ _ eq_refl).
Qed.

Lemma find_first_none needle : forall s,
  find_first needle s = None -> includes needle s = false.
Proof.
  induction s as [|c s IH]; intros H; cbn [find_first includes] in *.
  - destruct (starts_with needle []); [discriminate | reflexivity].
  - destruct (starts_with needle (c :: s)); [discriminate|].
    destruct (find_first needle s) as [[b r]|]; [discriminate|].
    cbn [orb]. exact (IH eq_refl).
Qed.

(** The occurrence found is the leftmost one. *)
Lemma find_first_leftmost needle : forall s before rest,
  find_first needle s = Some (before, rest) ->
  forall before' rest',
    s = before' ++ needle ++ rest' ->
    (List.length before <= List.length before')%nat.
Proof.
  induction s as [|c s IH]; intros before rest H before' rest' E;
    cbn [find_first] in H.
  - destruct (starts_with needle []); [|discriminate].
    injection H as <- _. cbn. lia.
  - destruct (starts_with needle (c :: s)) eqn:Hs.
    + injection H as <- _. cbn. lia.
    + destruct (find_first needle s) as [[b r]|] eqn:Hf; [|discriminate].
      injection H as <- _.
      destruct before' as [|d before'].
      * cbn [app] in E. rewrite E, starts_with_app in Hs. discriminate.
      * cbn [app] in E. injection E as _ E. cbn [List.length].
        apply le_n_S. exact (IH _ _ eq_refl _ _ E).
Qed.

Lemma find_first_before_free needle : forall s before rest,
  needle <> [] ->
  find_first needle s = Some (before, rest) ->
  includes needle before = false.
Proof.
  intros s before rest Hne H.
  destruct (includes needle before) eqn:Hi; [|reflexivity].
  exfalso.
  assert (Hdec : exists x y, before = x ++ needle ++ y).
  { clear -Hi. induction before as [|c b IH].
    - cbn in Hi. rewrite orb_false_r in Hi.
      exists [], []. rewrite app_nil_r. cbn.
      apply starts_with_inv in Hi. destruct needle; [reflexivity|].
      cbn in Hi. discriminate.
    - cbn [includes] in Hi. apply orb_prop in Hi. destruct Hi as [Hs|Hi].
      + exists [], (skipn (List.length needle) (c :: b)).
        exact (starts_with_inv needle (c :: b) Hs).
      + destruct (IH Hi) as (x & y & E). exists (c :: x), y.
        cbn. f_equal. exact E. }
  destruct Hdec as (x & y & E).
  pose proof (@find_first_spec _ _ _ _ H) as Es.
  rewrite E in Es. rewrite <- !app_assoc in Es.
  pose proof (@find_first_leftmost _ _ _ _ H _ _ Es) as L.
  rewrite E, !length_app in L.
  destruct needle; [congruence|]. cbn [List.length] in L. lia.
Qed.

Lemma app_prefix_split (A : Type) : forall (a a' u v : list A),
  a ++ u = a' ++ v -> (List.length a <= List.length a')%nat ->
  exists x, a' = a ++ x /\ u = x ++ v.
Proof.
  induction a as [|c a IH]; intros a' u v E L.
  - exists a'. split; [reflexivity | exact E].
  - destruct a' as [|d a']; [cbn in L; lia|].
    cbn [app] in E. injection E as <- E.
    destruct (IH a' u v E) as (x & -> & ->); [cbn in L; lia|].
    exists x. split; reflexivity.
Qed.

(** What [match_block] finds, and when it finds nothing. *)
Lemma match_block_spec (opening closing s : JsString) :
  opening <> [] -> closing <> [] ->
  match match_block opening closing s with
  | Some (before, inner, rest) =>
      s = before ++ opening ++ inner ++ closing ++ rest
      /\ includes opening before = false
      /\ includes closing inner = false
  | None =>
      forall before inner rest,
        s <> before ++ opening ++ inner ++ closing ++ rest
  end.
Proof.
  intros Ho Hc. unfold match_block.
  destruct (find_first opening s) as [[a r]|] eqn:Hf.
  - destruct (find_first closing r) as [[i r']|] eqn:Hg.
    + pose proof (@find_first_spec _ _ _ _ Hf) as E1.
      pose proof (@find_first_spec _ _ _ _ Hg) as E2.
      split; [rewrite E1, E2; reflexivity|]. split.
      * exact (@find_first_before_free _ _ _ _ Ho Hf).
      * exact (@find_first_before_free _ _ _ _ Hc Hg).
    + intros a' i' r' E.
      pose proof (@find_first_spec _ _ _ _ Hf) as E1.
      pose proof (@find_first_leftmost _ _ _ _ Hf _ _ E) as L.
      rewrite E in E1.
      destruct (@app_prefix_split _ _ _ _ _ (eq_sym E1) L) as (x & -> & E3).
      apply find_first_none in Hg.
      assert (Er : r = skipn (List.length opening)
                         ((x ++ opening ++ i') ++ closing ++ r')).
      { rewrite <- !app_assoc, <- E3. symmetry. apply skipn_prefix. }
      rewrite skipn_app in Er.
      replace (List.length opening - List.length (x ++ opening ++ i'))%nat
        with 0%nat in Er by (rewrite !length_app; lia).
      cbn [skipn] in Er.
      rewrite Er, includes_mid in Hg. discriminate.
  - intros a' i' r' E. apply find_first_none in Hf.
    rewrite E, includes_mid in Hf. discriminate.
Qed.

(* ================================================================== *)
(** * Replacing blocks *)

Lemma includes_inv needle : forall s,
  includes needle s = true -> exists x y, s = x ++ needle ++ y.
Proof.
  induction s as [|c s IH]; intros Hi.
  - cbn in Hi. rewrite orb_false_r in Hi.
    exists [], (skipn (List.length needle) []).
    exact (starts_with_inv needle [] Hi).
  - cbn [includes] in Hi. apply orb_prop in Hi. destruct Hi as [Hs|Hi].
    + exists [], (skipn (List.length needle) (c :: s)).
      exact (starts_with_inv needle (c :: s) Hs).
    + destruct (IH Hi) as (x & y & E). exists (c :: x), y.
      cbn. f_equal. exact E.
Qed.

Lemma clash_starts : forall p t y,
  clash p t = true -> starts_with p (t ++ y) = false.
Proof.
  induction p as [|a p IH]; intros t y H; [discriminate|].
  destruct t as [|b t]; [discriminate|].
  cbn [clash] in H. cbn [app starts_with].
  destruct (N.eqb a b); [|reflexivity].
  cbn [negb orb andb] in *. exact (IH _ _ H).
Qed.

(** An occurrence of [needle] in [a ++ r ++ t] lies within [a] or within
    [t] when [needle] and [r] are apart. *)
Lemma apart_no_touch (needle r : JsString) :
  apart needle r = true ->
  forall a t a' rest',
    a ++ r ++ t = a' ++ needle ++ rest' ->
    (exists u, a = a' ++ needle ++ u /\ rest' = u ++ r ++ t)
    \/ (exists x, a' = a ++ r ++ x /\ t = x ++ needle ++ rest').
Proof.
  unfold apart. intros Hap a t a' rest' E.
  apply andb_prop in Hap. destruct Hap as [Hin Hout].
  rewrite forallb_forall in Hin, Hout.
  destruct (le_lt_dec (List.length a) (List.length a')) as [L|L].
  - destruct (@app_prefix_split _ _ _ _ _ E L) as (x & -> & E1).
    destruct (le_lt_dec (List.length r) (List.length x)) as [L1|L1].
    + destruct (@app_prefix_split _ _ _ _ _ E1 L1) as (x' & -> & E2).
      right. exists x'. split; [reflexivity | exact E2].
    + exfalso.
      destruct (@app_prefix_split _ _ _ _ _ (eq_sym E1)
                  (Nat.lt_le_incl _ _ L1)) as (t0 & Er & E2).
      assert (Hc : clash needle (skipn (List.length x) r) = true).
      { apply Hin, in_seq. lia. }
      rewrite Er, skipn_prefix in Hc.
      apply clash_starts with (y := t) in Hc.
      rewrite <- E2, starts_with_app in Hc. discriminate.
  - destruct (@app_prefix_split _ _ _ _ _ (eq_sym E)
                (Nat.lt_le_incl _ _ L)) as (u & -> & E1).
    destruct (le_lt_dec (List.length needle) (List.length u)) as [L1|L1].
    + destruct (@app_prefix_split _ _ _ _ _ E1 L1) as (u' & -> & E2).
      left. exists u'. split; [reflexivity | exact E2].
    + exfalso.
      destruct (@app_prefix_split _ _ _ _ _ (eq_sym E1)
                  (Nat.lt_le_incl _ _ L1)) as (v & En & E2).
      assert (Hu : (1 <= List.length u)%nat).
      { rewrite length_app in L. lia. }
      assert (Hc : clash (skipn (List.length u) needle) r = true).
      { apply Hout, in_seq. lia. }
      rewrite En, skipn_prefix in Hc.
      apply clash_starts with (y := t) in Hc.
      rewrite E2, starts_with_app in Hc. discriminate.
Qed.

Section ReplaceBlocks.

Variables opening closing replacement : JsString.
Hypothesis opening_not_empty : opening <> [].
Hypothesis closing_not_empty : closing <> [].

Lemma match_block_shorter s before inner rest :
  match_block opening closing s = Some (before, inner, rest) ->
  (List.length rest < List.length s)%nat.
Proof.
  intros H.
  pose proof (match_block_spec s opening_not_empty closing_not_empty) as Hs.
  rewrite H in Hs. destruct Hs as [E _].
  rewrite E, !length_app.
  destruct opening; [congruence|]. cbn [List.length]. lia.
Qed.

Lemma replace_blocks_loop_fuel : forall fuel1 fuel2 s,
  (List.length s <= fuel1)%nat -> (List.length s <= fuel2)%nat ->
  replace_blocks_loop fuel1 opening closing replacement s
  = replace_blocks_loop fuel2 opening closing replacement s.
Proof.
  assert (Hnil : match_block opening closing [] = None).
  { unfold match_block. cbn [find_first].
    destruct opening; [congruence | reflexivity]. }
  induction fuel1 as [|f1 IH]; intros fuel2 s L1 L2.
  - destruct s; [|cbn in L1; lia].
    destruct fuel2; cbn [replace_blocks_loop]; [reflexivity|].
    rewrite Hnil. reflexivity.
  - destruct fuel2 as [|f2].
    + destruct s; [|cbn in L2; lia].
      cbn [replace_blocks_loop]. rewrite Hnil. reflexivity.
    + cbn [replace_blocks_loop].
      destruct (match_block opening closing s) as [[[a i] b]|] eqn:Hm;
        [|reflexivity].
      pose proof (match_block_shorter _ Hm) as Lb.
      rewrite (IH f2 b) by lia. reflexivity.
Qed.

(** The replacement proceeds match by match; the fuel never runs out. *)
Lemma replace_blocks_unfold s :
  replace_blocks opening closing replacement s =
  match match_block opening closing s with
  | None => s
  | Some (before, _, rest) =>
      before ++ replacement
      ++ replace_blocks opening closing replacement rest
  end.
Proof.
  unfold replace_blocks.
  destruct s as [|c s].
  - cbn [List.length replace_blocks_loop].
    destruct (match_block opening closing []) as [[[a i] b]|] eqn:Hm;
      [|reflexivity].
    pose proof (match_block_shorter _ Hm) as L. cbn in L. lia.
  - cbn [List.length replace_blocks_loop].
    destruct (match_block opening closing (c :: s)) as [[[a i] b]|] eqn:Hm;
      [|reflexivity].
    pose proof (match_block_shorter _ Hm) as L. cbn [List.length] in L.
    rewrite (@replace_blocks_loop_fuel (List.length s) (List.length b) b)
      by lia.
    reflexivity.
Qed.

Lemma match_block_none_iff (o c s : JsString) :
  o <> [] -> c <> [] ->
  (match_block o c s = None <->
   forall before inner rest, s <> before ++ o ++ inner ++ c ++ rest).
Proof.
  intros Ho Hc. pose proof (match_block_spec s Ho Hc) as Hs. split.
  - intros H. rewrite H in Hs. exact Hs.
  - intros H. destruct (match_block o c s) as [[[a i] b]|]; [|reflexivity].
    destruct Hs as [E _]. exfalso. exact (H _ _ _ E).
Qed.

(** Replacing blocks creates no occurrence of a text that is apart from
    the replacement. *)
Lemma replace_blocks_no_new_occurrence (needle : JsString) :
  apart needle replacement = true ->
  forall s,
    includes needle (replace_blocks opening closing replacement s) = true ->
    includes needle s = true.
Proof.
  intros Hap s.
  remember (List.length s) as n eqn:Hn.
  assert (Hle : (List.length s <= n)%nat) by lia. clear Hn.
  revert s Hle.
  induction n as [|n IH]; intros s Hle; rewrite replace_blocks_unfold;
    pose proof (match_block_spec s opening_not_empty closing_not_empty) as Hs;
    destruct (match_block opening closing s) as [[[a i] b]|] eqn:Hm;
    try (intros H; exact H).
  - pose proof (match_block_shorter _ Hm). lia.
  - pose proof (match_block_shorter _ Hm) as Lb.
    destruct Hs as [E _]. intros Hi.
    apply includes_inv in Hi. destruct Hi as (x & y & Ed).
    destruct (@apart_no_touch _ _ Hap _ _ _ _ Ed) as [(u & Ea & _)|(x' & _ & Eb)].
    + rewrite E, Ea, <- !app_assoc. apply includes_mid.
    + assert (Hb : includes needle b = true).
      { apply IH; [lia|]. rewrite Eb. apply includes_mid. }
      rewrite E. do 4 apply includes_app_r. exact Hb.
Qed.

(** After the replacement no block of the kind replaced is left. *)
Lemma replace_blocks_leaves_no_block :
  apart opening replacement = true ->
  forall s,
    match_block opening closing
      (replace_blocks opening closing replacement s) = None.
Proof.
  intros Hap s.
  remember (List.length s) as n eqn:Hn.
  assert (Hle : (List.length s <= n)%nat) by lia. clear Hn.
  revert s Hle.
  induction n as [|n IH]; intros s Hle; rewrite replace_blocks_unfold;
    pose proof (match_block_spec s opening_not_empty closing_not_empty) as Hs;
    destruct (match_block opening closing s) as [[[a i] b]|] eqn:Hm;
    try exact Hm.
  - pose proof (match_block_shorter _ Hm). lia.
  - pose proof (match_block_shorter _ Hm) as Lb.
    destruct Hs as (E & Ha & _).
    apply (match_block_none_iff _ opening_not_empty closing_not_empty).
    intros a' i' b' Ed.
    destruct (@apart_no_touch _ _ Hap _ _ _ _ Ed) as [(u & Ea & _)|(x' & _ & Eb)].
    + rewrite Ea, includes_mid in Ha. discriminate.
    + assert (Hb : match_block opening closing
                     (replace_blocks opening closing replacement b) = None)
        by (apply IH; lia).
      exact (proj1 (match_block_none_iff _ opening_not_empty
                      closing_not_empty) Hb _ _ _ Eb).
Qed.

(** Replacing blocks of another kind creates no block: a text without an
    [o]..[c] block has none after the replacement either. *)
Lemma replace_blocks_creates_no_block (o c : JsString) :
  o <> [] -> c <> [] ->
  apart o replacement = true -> apart c replacement = true ->
  forall s,
    match_block o c s = None ->
    match_block o c (replace_blocks opening closing replacement s) = None.
Proof.
  intros Ho Hc Hapo Hapc s.
  remember (List.length s) as n eqn:Hn.
  assert (Hle : (List.length s <= n)%nat) by lia. clear Hn.
  revert s Hle.
  induction n as [|n IH]; intros s Hle Hfree; rewrite replace_blocks_unfold;
    pose proof (match_block_spec s opening_not_empty closing_not_empty) as Hs;
    destruct (match_block opening closing s) as [[[a i] b]|] eqn:Hm;
    try exact Hfree.
  - pose proof (match_block_shorter _ Hm). lia.
  - pose proof (match_block_shorter _ Hm) as Lb.
    destruct Hs as (E & _ & _).
    pose proof (proj1 (match_block_none_iff s Ho Hc) Hfree) as Hnone.
    assert (Hbfree : match_block o c b = None).
    { apply (match_block_none_iff _ Ho Hc). intros a' i' b' Eb.
      apply (Hnone (a ++ opening ++ i ++ closing ++ a') i' b').
      rewrite E, Eb, <- !app_assoc. reflexivity. }
    apply (match_block_none_iff _ Ho Hc).
    intros a' i' b' Ed.
    destruct (@apart_no_touch _ _ Hapo _ _ _ _ Ed) as [(u & Ea & Er)|(x' & _ & Eb)].
    + (* the opening lies in [a]; where is the closing? *)
      assert (Ed' : u ++ replacement
                    ++ replace_blocks opening closing replacement b
                    = i' ++ c ++ b') by (symmetry; exact Er).
      destruct (@apart_no_touch _ _ Hapc _ _ _ _ Ed')
        as [(u' & Eu & _)|(x' & _ & Eb)].
      * apply (Hnone a' i' (u' ++ opening ++ i ++ closing ++ b)).
        rewrite E, Ea, Eu, <- !app_assoc. reflexivity.
      * assert (Hcb : includes c b = true).
        { apply (@replace_blocks_no_new_occurrence c Hapc).
          rewrite Eb. apply includes_mid. }
        apply includes_inv in Hcb. destruct Hcb as (x & y & Eb').
        apply (Hnone a' (u ++ opening ++ i ++ closing ++ x) y).
        rewrite E, Ea, Eb', <- !app_assoc. reflexivity.
    + pose proof (IH b ltac:(lia) Hbfree) as Hb.
      exact (proj1 (match_block_none_iff _ Ho Hc) Hb _ _ _ Eb).
Qed.

End ReplaceBlocks.

(* ================================================================== *)
(** * extractCode and the submit handlers *)

Lemma trim_infix (s : JsString) : exists pre post, s = pre ++ trim s ++ post.
Proof.
  destruct (skip_spaces_decomp s) as (pre & E1 & _).
  destruct (skip_spaces_decomp (rev (skip_spaces s))) as (pre2 & E2 & _).
  exists pre, (rev pre2). unfold trim.
  apply (f_equal (@rev N)) in E2.
  rewrite rev_involutive, rev_app_distr in E2.
  rewrite <- E2. exact E1.
Qed.

Lemma match_block_none_infix (o c pre m post : JsString) :
  o <> [] -> c <> [] ->
  match_block o c (pre ++ m ++ post) = None -> match_block o c m = None.
Proof.
  intros Ho Hc H.
  pose proof (proj1 (match_block_none_iff _ Ho Hc) H) as Hnone.
  apply (match_block_none_iff _ Ho Hc). intros a i b E.
  apply (Hnone (pre ++ a) i (b ++ post)).
  rewrite E, <- !app_assoc. reflexivity.
Qed.

Lemma nonempty_html (c : App.Creation) :
  App.creation_html c <> [] ->
  exists u html, App.creation_html c = u :: html.
Proof.
  destruct (App.creation_html c) as [|u html]; [congruence | eauto].
Qed.

Lemma match_block_leftmost (o c s before inner rest : JsString) :
  match_block o c s = Some (before, inner, rest) ->
  (forall b r, s = b ++ o ++ r ->
               (List.length before <= List.length b)%nat)
  /\ (forall i r, inner ++ c ++ rest = i ++ c ++ r ->
                  (List.length inner <= List.length i)%nat).
Proof.
  unfold match_block.
  destruct (find_first o s) as [[a r0]|] eqn:Hf; [|discriminate].
  destruct (find_first c r0) as [[i0 r1]|] eqn:Hg; [|discriminate].
  intros H. injection H as -> -> ->. split.
  - intros b r E. exact (@find_first_leftmost _ _ _ _ Hf _ _ E).
  - intros i r E.
    pose proof (@find_first_spec _ _ _ _ Hg) as E0.
    rewrite <- E0 in E.
    exact (@find_first_leftmost _ _ _ _ Hg _ _ E).
Qed.

(** X19.  For a creation with a document: when the document holds a
    [<style>]..[</style>] pair, [extractCode('css')] returns the trimmed
    text between the leftmost [<style>] and the first [</style>] after it,
    a text that holds no [</style>]; when the document holds no such pair
    (a [style] tag carrying attributes does not count), it returns the
    comment "/* No internal CSS found */".  The same holds for ['js'] with
    [<script>], [</script>] and "// No internal JS found". *)
Theorem extractCode_first_block :
  forall c : App.Creation,
    App.creation_html c <> [] ->
    ((exists b i r,
         App.creation_html c = b ++ js "<style>" ++ i ++ js "</style>" ++ r) ->
     exists before inner rest,
       App.creation_html c
       = before ++ js "<style>" ++ inner ++ js "</style>" ++ rest
       /\ (forall b r,
              App.creation_html c = b ++ js "<style>" ++ r ->
              (List.length before <= List.length b)%nat)
       /\ (forall i r,
              inner ++ js "</style>" ++ rest = i ++ js "</style>" ++ r ->
              (List.length inner <= List.length i)%nat)
       /\ includes (js "<style>") before = false
       /\ includes (js "</style>") inner = false
       /\ LivePreview.extractCode LivePreview.CodeCss (Some c) = trim inner)
    /\ ((forall b i r,
            App.creation_html c <> b ++ js "<style>" ++ i ++ js "</style>" ++ r) ->
        LivePreview.extractCode LivePreview.CodeCss (Some c)
        = js "/* No internal CSS found */")
    /\ ((exists b i r,
            App.creation_html c = b ++ js "<script>" ++ i ++ js "</script>" ++ r) ->
        exists before inner rest,
          App.creation_html c
          = before ++ js "<script>" ++ inner ++ js "</script>" ++ rest
          /\ (forall b r,
                 App.creation_html c = b ++ js "<script>" ++ r ->
                 (List.length before <= List.length b)%nat)
          /\ (forall i r,
                 inner ++ js "</script>" ++ rest = i ++ js "</script>" ++ r ->
                 (List.length inner <= List.length i)%nat)
          /\ includes (js "<script>") before = false
          /\ includes (js "</script>") inner = false
          /\ LivePreview.extractCode LivePreview.CodeJs (Some c) = trim inner)
       /\ ((forall b i r,
               App.creation_html c <> b ++ js "<script>" ++ i ++ js "</script>" ++ r) ->
           LivePreview.extractCode LivePreview.CodeJs (Some c)
           = js "// No internal JS found").
Proof.
  intros c Hne. destruct (nonempty_html c Hne) as (u & html & E).
  unfold LivePreview.extractCode. rewrite E.
  split; [|split; [|split]].
  - intros (b0 & i0 & r0 & E0).
    pose proof (@match_block_spec (js "<style>") (js "</style>") (u :: html)
                  ltac:(discriminate) ltac:(discriminate)) as Hs.
    destruct (match_block (js "<style>") (js "</style>") (u :: html))
      as [[[a i] b]|] eqn:Hm.
    + destruct Hs as (E1 & H1 & H2).
      destruct (match_block_leftmost _ _ _ Hm) as [L1 L2].
      exists a, i, b. repeat split; assumption.
    + exfalso. exact (Hs _ _ _ E0).
  - intros Hnone.
    pose proof (@match_block_spec (js "<style>") (js "</style>") (u :: html)
                  ltac:(discriminate) ltac:(discriminate)) as Hs.
    destruct (match_block (js "<style>") (js "</style>") (u :: html))
      as [[[a i] b]|]; [|reflexivity].
    destruct Hs as (E1 & _). exfalso. exact (Hnone _ _ _ E1).
  - intros (b0 & i0 & r0 & E0).
    pose proof (@match_block_spec (js "<script>") (js "</script>") (u :: html)
                  ltac:(discriminate) ltac:(discriminate)) as Hs.
    destruct (match_block (js "<script>") (js "</script>") (u :: html))
      as [[[a i] b]|] eqn:Hm.
    + destruct Hs as (E1 & H1 & H2).
      destruct (match_block_leftmost _ _ _ Hm) as [L1 L2].
      exists a, i, b. repeat split; assumption.
    + exfalso. exact (Hs _ _ _ E0).
  - intros Hnone.
    pose proof (@match_block_spec (js "<script>") (js "</script>") (u :: html)
                  ltac:(discriminate) ltac:(discriminate)) as Hs.
    destruct (match_block (js "<script>") (js "</script>") (u :: html))
      as [[[a i] b]|]; [|reflexivity].
    destruct Hs as (E1 & _). exfalso. exact (Hnone _ _ _ E1).
Qed.

Lemma extractCode_first_block_witness :
  (exists before inner rest,
      App.creation_html styled_page
      = before ++ js "<style>" ++ inner ++ js "</style>" ++ rest
      /\ (forall b r,
             App.creation_html styled_page = b ++ js "<style>" ++ r ->
             (List.length before <= List.length b)%nat)
      /\ (forall i r,
             inner ++ js "</style>" ++ rest = i ++ js "</style>" ++ r ->
             (List.length inner <= List.length i)%nat)
      /\ includes (js "<style>") before = false
      /\ includes (js "</style>") inner = false
      /\ LivePreview.extractCode LivePreview.CodeCss (Some styled_page)
         = trim inner)
  /\ LivePreview.extractCode LivePreview.CodeJs (Some styled_page)
     = js "// No internal JS found".
Proof.
  destruct (extractCode_first_block styled_page ltac:(discriminate))
    as (Hcss & _ & _ & Hjs).
  split.
  - apply Hcss.
    exists (js "<html>"), (js " body { margin: 0 } "),
      (js "<script src='a.js'></script></html>").
    reflexivity.
  - apply Hjs. intros b i r E.
    assert (Hi : includes (js "<script>") (App.creation_html styled_page)
                 = true) by (rewrite E; apply includes_mid).
    vm_compute in Hi. discriminate.
Defined.

(** X20.  [extractCode('html')] leaves no inline block: its result holds
    neither a [<style>]..[</style>] pair nor a [<script>]..[</script>]
    pair, for every creation. *)
Theorem extractCode_html_has_no_inline_block :
  forall creation : option App.Creation,
    match_block (js "<style>") (js "</style>")
      (LivePreview.extractCode LivePreview.CodeHtml creation) = None
    /\ match_block (js "<script>") (js "</script>")
         (LivePreview.extractCode LivePreview.CodeHtml creation) = None.
Proof.
  intros [c|]; [|split; reflexivity].
  unfold LivePreview.extractCode.
  destruct (App.creation_html c) as [|u html]; [split; reflexivity|].
  set (t1 := replace_blocks (js "<style>") (js "</style>")
               (js "<!-- CSS Removed -->") (u :: html)).
  set (t2 := replace_blocks (js "<script>") (js "</script>")
               (js "<!-- JS Removed -->") t1).
  assert (H1 : match_block (js "<style>") (js "</style>") t1 = None).
  { apply replace_blocks_leaves_no_block;
      first [discriminate | vm_compute; reflexivity]. }
  assert (H2 : match_block (js "<style>") (js "</style>") t2 = None).
  { apply replace_blocks_creates_no_block;
      first [exact H1 | discriminate | vm_compute; reflexivity]. }
  assert (H3 : match_block (js "<script>") (js "</script>") t2 = None).
  { apply replace_blocks_leaves_no_block;
      first [discriminate | vm_compute; reflexivity]. }
  destruct (trim_infix t2) as (pre & post & E).
  rewrite E in H2, H3.
  split.
  - apply (@match_block_none_infix (js "<style>") (js "</style>")
             pre _ post); [discriminate | discriminate | exact H2].
  - apply (@match_block_none_infix (js "<script>") (js "</script>")
             pre _ post); [discriminate | discriminate | exact H3].
Qed.

(** X21.  Whatever [extractCode] returns has no white space at either
    end. *)
Theorem extractCode_result_is_trimmed :
  forall (type : LivePreview.CodeType) (creation : option App.Creation)
         (c : N) (front rest : JsString),
    (LivePreview.extractCode type creation = c :: rest ->
     is_space c = false)
    /\ (LivePreview.extractCode type creation = front ++ [c] ->
        is_space c = false).
Proof.
  intros type creation c front rest.
  assert (Hconst : forall k : JsString,
             is_space (hd 0%N k) = false ->
             is_space (hd 0%N (rev k)) = false ->
             (k = c :: rest -> is_space c = false)
             /\ (k = front ++ [c] -> is_space c = false)).
  { intros k Hh Hl. split.
    - intros ->. exact Hh.
    - intros ->. rewrite rev_app_distr in Hl. exact Hl. }
  assert (Htrim : forall s : JsString,
             (trim s = c :: rest -> is_space c = false)
             /\ (trim s = front ++ [c] -> is_space c = false)).
  { intros s. split; [apply trim_head | apply trim_last]. }
  unfold LivePreview.extractCode.
  destruct creation as [cr|]; [|split; [discriminate|]].
  - destruct (App.creation_html cr) as [|u html].
    + split; [discriminate|]. intros H. destruct front; discriminate.
    + destruct type.
      * apply Htrim.
      * destruct (match_block (js "<style>") (js "</style>") (u :: html))
          as [[[a i] b]|]; [apply Htrim | apply Hconst; reflexivity].
      * destruct (match_block (js "<script>") (js "</script>") (u :: html))
          as [[[a i] b]|]; [apply Htrim | apply Hconst; reflexivity].
  - intros H. destruct front; discriminate.
Qed.

Lemma extractCode_result_is_trimmed_witness :
  is_space 47%N = false.
Proof.
  apply (proj1 (extractCode_result_is_trimmed LivePreview.CodeCss
                  (Some my_page) 47%N []
                  (List.tl (js "/* No internal CSS found */")))).
  vm_compute. reflexivity.
Defined.

Lemma not_all_space (s : JsString) (c : N) :
  In c s -> is_space c = false -> trim s <> [].
Proof.
  intros Hin Hc Ht. apply trim_nil_iff in Ht.
  rewrite Forall_forall in Ht. rewrite (Ht c Hin) in Hc. discriminate.
Qed.

(** X22.  A refinement prompt made of white space only is never passed to
    [onRefine] and stays in the input; any other prompt is passed on as
    typed, untrimmed, and the input is cleared. *)
Theorem handleRefineSubmit_skips_blank_prompts :
  forall (refinePrompt : JsString) (c : N),
    (Forall (fun d => is_space d = true) refinePrompt ->
     LivePreview.handleRefineSubmit refinePrompt = (None, refinePrompt))
    /\ (In c refinePrompt -> is_space c = false ->
        LivePreview.handleRefineSubmit refinePrompt
        = (Some refinePrompt, [])).
Proof.
  intros refinePrompt c. unfold LivePreview.handleRefineSubmit. split.
  - intros H. apply trim_nil_iff in H. rewrite H. reflexivity.
  - intros Hin Hc. pose proof (not_all_space _ _ Hin Hc) as Hne.
    destruct (trim refinePrompt); [congruence | reflexivity].
Qed.

Lemma handleRefineSubmit_skips_blank_prompts_witness :
  LivePreview.handleRefineSubmit (js "   ") = (None, js "   ").
Proof.
  apply (proj1 (handleRefineSubmit_skips_blank_prompts (js "   ") 0%N)).
  repeat constructor.
Defined.

(** X23.  [handleManualSubmit] calls [onGenerate] unless the transcript is
    blank and no file is attached; it passes the transcript as typed and
    then clears the transcript and the file list.  A blank transcript with
    a file attached is submitted. *)
Theorem handleManualSubmit_needs_text_or_file :
  forall (A : Type) (transcript : JsString) (assetFiles : list A) (c : N),
    (Forall (fun d => is_space d = true) transcript ->
     InputArea.handleManualSubmit transcript assetFiles
     = match assetFiles with
       | [] => (None, transcript, [])
       | _ :: _ => (Some (transcript, assetFiles), [], [])
       end)
    /\ (In c transcript -> is_space c = false ->
        InputArea.handleManualSubmit transcript assetFiles
        = (Some (transcript, assetFiles), [], [])).
Proof.
  intros A transcript assetFiles c. unfold InputArea.handleManualSubmit.
  split.
  - intros H. apply trim_nil_iff in H. rewrite H.
    destruct assetFiles; reflexivity.
  - intros Hin Hc. pose proof (not_all_space _ _ Hin Hc) as Hne.
    destruct (trim transcript); [congruence | reflexivity].
Qed.

Lemma handleManualSubmit_needs_text_or_file_witness :
  InputArea.handleManualSubmit (js " ") [js "a.png"]
  = (Some (js " ", [js "a.png"]), [], []).
Proof.
  apply (proj1 (handleManualSubmit_needs_text_or_file (js " ")
                  [js "a.png"] 0%N)).
  repeat constructor.
Defined.
